(** * Order synchronisation core of [HomeView.tsx]

    A shallow embedding of the order store, the push-frame dispatcher, the
    socket life cycle and the fetch-by-branch reconciliation implemented by
    the [HomeView] component (src/modules/home/HomeView.tsx), together with
    the line-total arithmetic of its order table.

    JavaScript numbers are IEEE-754 binary64 values, modelled by Rocq's
    primitive floats; React state is threaded explicitly through every
    handler; the browser (sockets, alerts, console, HTTP requests) is an
    explicit part of the state.  The model follows the component while it
    is mounted; [createOrder], [addItemToOrder] and [updateOrderStatus]
    never touch the order store and are left out. *)

From Stdlib Require Import ZArith QArith Qabs Floats Ascii DecimalString DecimalN.
From stdpp Require Import base decidable option list strings.

Set Default Proof Using "Type".

(** ** Data model (the TypeScript interfaces) *)

(** [interface ResponseOrderItemDTO].  [discountedPercentage?] is optional:
    [None] is a property that reads as [undefined]. *)
Record ResponseOrderItemDTO := {
  orderItemID : string;
  itemID : string;
  itemName : string;
  soldPrice : float;
  discountedPercentage : option float;
  taxedPercentage : float;
  quantity : float;
}.

(** [interface ResponseOrderDTO].  The interface is erased at run time and a
    push payload is whatever [JSON.parse] produced, so [orderID] is an
    optional string here: [None] is a payload object without that property
    (its read gives [undefined]).  A valid order has [orderID = Some _]. *)
Record ResponseOrderDTO := {
  orderID : option string;
  branchID : string;
  orderNumber : float;
  orderType : string;
  orderStatus : string;
  orderNote : option string;
  orderCancelMessage : option string;
  paymentType : string;
  totalPrice : float;
  isPaid : bool;
  createdAt : string;
  items : list ResponseOrderItemDTO;
}.

(** [a === b] on two [orderID] reads: both are [undefined] or strings, which
    strict equality compares by value. *)
Definition strict_eq (a b : option string) : bool := bool_decide (a = b).

(** ** Order store: the updaters passed to [setOrders] *)

(** The updater of [handleNewOrder] (lines 160-167):
    [prev.some(o => o.orderID === order.orderID)
       ? prev.map(o => o.orderID === order.orderID ? order : o)
       : [...prev, order]]. *)
Definition handleNewOrder (order : ResponseOrderDTO)
    (prev : list ResponseOrderDTO) : list ResponseOrderDTO :=
  if existsb (fun o => strict_eq (orderID o) (orderID order)) prev
  then map (fun o => if strict_eq (orderID o) (orderID order) then order else o) prev
  else prev ++ [order].

(** The updater of [handleStatusChange] (lines 172-176):
    [prev.map(order => order.orderID === updatedOrder.orderID ? updatedOrder : order)]. *)
Definition handleStatusChange (updatedOrder : ResponseOrderDTO)
    (prev : list ResponseOrderDTO) : list ResponseOrderDTO :=
  map (fun order =>
         if strict_eq (orderID order) (orderID updatedOrder)
         then updatedOrder else order) prev.

(** The store operations of the specification, read off the list the
    component keeps: [get] is the first entry with the given key. *)
Definition get (id : option string) (store : list ResponseOrderDTO)
    : option ResponseOrderDTO :=
  find (fun o => strict_eq (orderID o) id) store.

Definition keys (store : list ResponseOrderDTO) : list (option string) :=
  map orderID store.

(** ** Money: the line total of the order table (lines 632-640) *)

(** JavaScript truthiness of a number: [NaN], [+0] and [-0] are falsy. *)
Definition truthy (x : float) : bool :=
  negb (PrimFloat.is_nan x || PrimFloat.is_zero x).

(** [item.discountedPercentage || 0]: [undefined] is falsy as well. *)
Definition discount_or_zero (d : option float) : float :=
  match d with
  | Some x => if truthy x then x else 0%float
  | None => 0%float
  end.

(** The number handed to [toFixed], evaluated left to right in binary64:
    [item.quantity * item.soldPrice * (1 - (item.discountedPercentage || 0) / 100)
       * (1 + item.taxedPercentage / 100)]. *)
Definition lineTotal (item : ResponseOrderItemDTO) : float :=
  (quantity item * soldPrice item
   * (1 - discount_or_zero (discountedPercentage item) / 100)
   * (1 + taxedPercentage item / 100))%float.


(** The exact value of a double, [±m·2^e]; [NaN] and the infinities have
    none. *)
Definition float_value (x : float) : option Q :=
  match Prim2SF x with
  | S754_zero _ => Some 0%Q
  | S754_finite s m e =>
      let magnitude :=
        if (0 <=? e)%Z then inject_Z (Zpos m * 2 ^ e)
        else (Zpos m # 2 ^ Z.to_pos (- e))%Q in
      Some (if s then (- magnitude)%Q else magnitude)
  | S754_nan | S754_infinity _ => None
  end.


Definition digits (n : Z) : string := NilZero.string_of_uint (N.to_uint (Z.to_N n)).







(** ** The component and its browser environment *)

(** [WebSocket.readyState]. *)
Inductive ReadyState := CONNECTING | OPEN | CLOSING | CLOSED.

Record WebSocket := { url : string; readyState : ReadyState }.

(** A channel is live while it is connecting or open. *)
Definition live (ws : WebSocket) : bool :=
  match readyState ws with
  | CONNECTING | OPEN => true
  | CLOSING | CLOSED => false
  end.

(** What [console.log] and [console.error] were called with (the leading
    label; the logged object is not kept). *)
Inductive ConsoleEntry :=
| console_log (label : string)
| console_error (label : string).

(** A request sent by [axios.get]; [settled] once its promise has resolved
    or rejected. *)
Record Request := { request_url : string; settled : bool }.

(** The [useState] cells and the [useRef] cell of [HomeView] that the
    synchronisation code uses, followed by the browser: every socket ever
    constructed ([socketRef.current] is an index into that list), the alerts
    shown, the console, and the requests sent. *)
Record State := {
  branchId : string;
  isConnected : bool;
  orders : list ResponseOrderDTO;
  connectionMessages : list string;
  socketRef : option nat;
  sockets : list WebSocket;
  alerts : list string;
  console : list ConsoleEntry;
  requests : list Request;
}.

(** The component as mounted: the initial values of lines 52-72. *)
Definition initial : State :=
  {| branchId := ""; isConnected := false; orders := [];
     connectionMessages := []; socketRef := None;
     sockets := []; alerts := []; console := []; requests := [] |}.

Definition setBranchId (v : string) (s : State) : State :=
  {| branchId := v; isConnected := isConnected s; orders := orders s;
     connectionMessages := connectionMessages s; socketRef := socketRef s;
     sockets := sockets s; alerts := alerts s; console := console s;
     requests := requests s |}.

Definition setIsConnected (b : bool) (s : State) : State :=
  {| branchId := branchId s; isConnected := b; orders := orders s;
     connectionMessages := connectionMessages s; socketRef := socketRef s;
     sockets := sockets s; alerts := alerts s; console := console s;
     requests := requests s |}.

(** [setOrders(updater)]; [setOrders(value)] is [setOrders (fun _ => value)]. *)
Definition setOrders (updater : list ResponseOrderDTO -> list ResponseOrderDTO)
    (s : State) : State :=
  {| branchId := branchId s; isConnected := isConnected s;
     orders := updater (orders s);
     connectionMessages := connectionMessages s; socketRef := socketRef s;
     sockets := sockets s; alerts := alerts s; console := console s;
     requests := requests s |}.

Definition setConnectionMessages (updater : list string -> list string)
    (s : State) : State :=
  {| branchId := branchId s; isConnected := isConnected s; orders := orders s;
     connectionMessages := updater (connectionMessages s);
     socketRef := socketRef s;
     sockets := sockets s; alerts := alerts s; console := console s;
     requests := requests s |}.

Definition set_socketRef (r : option nat) (s : State) : State :=
  {| branchId := branchId s; isConnected := isConnected s; orders := orders s;
     connectionMessages := connectionMessages s; socketRef := r;
     sockets := sockets s; alerts := alerts s; console := console s;
     requests := requests s |}.

Definition set_sockets (l : list WebSocket) (s : State) : State :=
  {| branchId := branchId s; isConnected := isConnected s; orders := orders s;
     connectionMessages := connectionMessages s; socketRef := socketRef s;
     sockets := l; alerts := alerts s; console := console s;
     requests := requests s |}.

Definition set_requests (l : list Request) (s : State) : State :=
  {| branchId := branchId s; isConnected := isConnected s; orders := orders s;
     connectionMessages := connectionMessages s; socketRef := socketRef s;
     sockets := sockets s; alerts := alerts s; console := console s;
     requests := l |}.

(** [alert(message)]. *)
Definition alert (message : string) (s : State) : State :=
  {| branchId := branchId s; isConnected := isConnected s; orders := orders s;
     connectionMessages := connectionMessages s; socketRef := socketRef s;
     sockets := sockets s; alerts := alerts s ++ [message];
     console := console s; requests := requests s |}.

Definition to_console (e : ConsoleEntry) (s : State) : State :=
  {| branchId := branchId s; isConnected := isConnected s; orders := orders s;
     connectionMessages := connectionMessages s; socketRef := socketRef s;
     sockets := sockets s; alerts := alerts s;
     console := console s ++ [e]; requests := requests s |}.

(** [ws.readyState = st] for the socket at index [i]. *)
Definition set_readyState (i : nat) (st : ReadyState) (s : State) : State :=
  set_sockets (alter (fun ws => {| url := url ws; readyState := st |}) i (sockets s)) s.

(** [socket.close()]: starts the closing handshake unless the socket is
    already closing or closed. *)
Definition close (i : nat) (s : State) : State :=
  match sockets s !! i with
  | Some ws => if live ws then set_readyState i CLOSING s else s
  | None => s
  end.

Definition API_URL : string := "https://aroided-pos-api-dev.azurewebsites.net".

(** [s.replace(pattern, replacement)] with a string pattern: the first
    occurrence only. *)
Fixpoint replace (pattern replacement s : string) : string :=
  if String.prefix pattern s
  then replacement +:+ String.substring (String.length pattern)
                                        (String.length s - String.length pattern) s
  else match s with
       | EmptyString => EmptyString
       | String c rest => String c (replace pattern replacement rest)
       end.

(** Line 151: [addConnectionMessage]; [now] is what
    [new Date().toLocaleTimeString()] returns at the call. *)
Definition addConnectionMessage (now message : string) (s : State) : State :=
  setConnectionMessages (fun prev => prev ++ ["[" +:+ now +:+ "] " +:+ message]) s.

(** *** Inbound frames *)

(** The object [JSON.parse(event.data)] returned, as far as the handler
    reads it: [data.type], [data.data] and [data.connectionId].  [None] is a
    property that reads as [undefined].  [data] is the JSON object under the
    key [data]; for the frame types other than [new_order] and
    [status_changed] it is never read. *)
Record Message := {
  type : option string;
  data : ResponseOrderDTO;
  connectionId : option string;
}.

(** The outcome of [JSON.parse(event.data)]: a [SyntaxError] is thrown, or
    the text is the JSON [null], or it is a message. *)
Inductive Parsed :=
| SyntaxError
| JsonNull
| JsonObject (m : Message).

(** [`${x}`] for a value that is a string or [undefined]. *)
Definition interpolate (x : option string) : string :=
  match x with Some v => v | None => "undefined" end.

(** Lines 105-133: [socketRef.current.onmessage].  Both a [SyntaxError] of
    [JSON.parse] and the [TypeError] of reading [data.type] off [null] end
    in the [catch] of line 130. *)
Definition onmessage (now : string) (event_data : Parsed) (s : State) : State :=
  match event_data with
  | SyntaxError | JsonNull =>
      to_console (console_error "Error parsing WebSocket message:") s
  | JsonObject m =>
      let s := addConnectionMessage now ("Received: " +:+ interpolate (type m)) s in
      let s := to_console (console_log "Received message:") s in
      let case (label : string) := bool_decide (type m = Some label) in
      if case "new_order" then
        setOrders (handleNewOrder (data m)) s
      else if case "status_changed" then
        setOrders (handleStatusChange (data m))
                  (to_console (console_log "Status changed:") s)
      else if case "connection" then
        addConnectionMessage now
          ("Connection established. ID: " +:+ interpolate (connectionId m)) s
      else if case "pong" then
        to_console (console_log "Ping-pong: Connection alive") s
      else
        to_console (console_log "Unknown message type:") s
  end.

(** Lines 98-103, 135-138 and 140-143: the other three socket handlers. *)
Definition onopen (now : string) (s : State) : State :=
  addConnectionMessage now "Connected to WebSocket server" (setIsConnected true s).

Definition onclose (now : string) (s : State) : State :=
  addConnectionMessage now "Disconnected from WebSocket server" (setIsConnected false s).

(** The [type] of the event an [error] handler receives is ["error"]. *)
Definition onerror (now : string) (s : State) : State :=
  addConnectionMessage now "WebSocket error: error" (setIsConnected false s).

(** *** Reconciliation: [fetchOrders] (lines 196-211) *)

Module Axios.
(** [response.data], the envelope of the REST collaborator. *)
Record Body := {
  response : float;
  data : option (list ResponseOrderDTO);
  message : option string;
}.

(** How the promise of [axios.get] settles: rejected (transport error or
    a status outside 2xx), or resolved with [response.data], which is
    [None] when the body is [null] or missing. *)
Inductive Outcome :=
| Rejected (error : string)
| Resolved (response_data : option Body).
End Axios.

(** The part of [fetchOrders] before the [await]: the request goes out for
    the [branchId] of the render the closure belongs to. *)
Definition fetchOrders (s : State) : State :=
  set_requests
    (requests s ++
     [{| request_url := API_URL +:+ "/api/v1/Order/GetOrdersByBranchId/" +:+ branchId s;
         settled := false |}]) s.

(** The part after the [await].  With [response.data.data] missing,
    [setOrders([])] has run when [.length] throws into the [catch]. *)
Definition fetchOrders_settled (now : string) (outcome : Axios.Outcome)
    (s : State) : State :=
  match outcome with
  | Axios.Rejected _ => to_console (console_error "Error fetching orders:") s
  | Axios.Resolved None => to_console (console_error "Error fetching orders:") s
  | Axios.Resolved (Some body) =>
      if PrimFloat.eqb (Axios.response body) 200 then
        match Axios.data body with
        | Some fetched =>
            addConnectionMessage now
              ("Fetched " +:+ digits (Z.of_nat (length fetched)) +:+ " orders")
              (setOrders (fun _ => fetched) s)
        | None =>
            to_console (console_error "Error fetching orders:")
                       (setOrders (fun _ => []) s)
        end
      else to_console (console_error "Error fetching orders:") s
  end.

(** Lines 180-184: the effect that runs after a render in which [branchId]
    changed (on mount [branchId] is empty and it does nothing). *)
Definition branchId_effect (s : State) : State :=
  if bool_decide (branchId s = "") then s else fetchOrders s.

(** Line 315: [onChange] of the Branch ID input.  Setting a state cell to
    the value it holds causes no render, hence no effect. *)
Definition onChange (v : string) (s : State) : State :=
  if bool_decide (v = branchId s) then s else branchId_effect (setBranchId v s).

(** Lines 330-335: [onClick] of the Disconnect button. *)
Definition disconnect (now : string) (s : State) : State :=
  match socketRef s with
  | Some i => addConnectionMessage now "Manually disconnected" (close i s)
  | None => s
  end.

Section Connection.

(** Whether [new WebSocket(url)] throws (a [SyntaxError] for a URL the
    constructor does not accept); decided by the browser. *)
Variable WebSocket_throws : string -> bool.

(** Lines 78-148: [connectWebSocket]. *)
Definition connectWebSocket (now : string) (s : State) : State :=
  if bool_decide (branchId s = "") then alert "Please enter a Branch ID" s
  else
    let s := match socketRef s with Some i => close i s | None => s end in
    let wsUrl :=
      replace "http://" "ws://" (replace "https://" "wss://" API_URL)
      +:+ "/ws/orders?branchId=" +:+ branchId s in
    let s := addConnectionMessage now ("Connecting to " +:+ wsUrl +:+ "...") s in
    if WebSocket_throws wsUrl then
      setIsConnected false
        (to_console (console_error "Failed to connect to WebSocket:") s)
    else
      set_socketRef (Some (length (sockets s)))
        (set_sockets (sockets s ++ [{| url := wsUrl; readyState := CONNECTING |}]) s).

(** What can happen to the mounted component: the user edits the branch
    field or clicks a button, the browser fires an event of a socket, or a
    request settles. *)
Inductive Event :=
| ChangeBranchId (v : string)
| ClickConnect
| ClickDisconnect
| ClickRefresh
| SocketOpen (i : nat)
| SocketMessage (i : nat) (event_data : Parsed)
| SocketError (i : nat)
| SocketClose (i : nat)
| FetchSettled (r : nat) (outcome : Axios.Outcome).

(** One event, handled at time [now].  The Connect button is disabled
    while [isConnected] and the Disconnect button while not (lines 320 and
    336).  The browser fires [open] on a connecting socket, [message] on
    an open one, [error] and [close] on one that is not closed yet; a
    request settles once. *)
Definition step (s : State) (timed : string * Event) : State :=
  let (now, e) := timed in
  match e with
  | ChangeBranchId v => onChange v s
  | ClickConnect => if isConnected s then s else connectWebSocket now s
  | ClickDisconnect => if isConnected s then disconnect now s else s
  | ClickRefresh => fetchOrders s
  | SocketOpen i =>
      match sockets s !! i with
      | Some {| readyState := CONNECTING |} => onopen now (set_readyState i OPEN s)
      | _ => s
      end
  | SocketMessage i event_data =>
      match sockets s !! i with
      | Some {| readyState := OPEN |} => onmessage now event_data s
      | _ => s
      end
  | SocketError i =>
      match sockets s !! i with
      | Some {| readyState := CLOSED |} | None => s
      | Some _ => onerror now s
      end
  | SocketClose i =>
      match sockets s !! i with
      | Some {| readyState := CLOSED |} | None => s
      | Some _ => onclose now (set_readyState i CLOSED s)
      end
  | FetchSettled r outcome =>
      match requests s !! r with
      | Some {| request_url := u; settled := false |} =>
          fetchOrders_settled now outcome
            (set_requests (<[r := {| request_url := u; settled := true |}]> (requests s)) s)
      | _ => s
      end
  end.

Definition run (s : State) (trace : list (string * Event)) : State :=
  foldl step s trace.

End Connection.

(** *** Derived notions used by the statements *)

(** A push frame of the given [type] carrying the order snapshot [o]. *)
Definition frame (ty : string) (o : ResponseOrderDTO) : Parsed :=
  JsonObject {| type := Some ty; data := o; connectionId := None |}.

(** The two store updates a frame can cause. *)
Inductive Update :=
| new_order (o : ResponseOrderDTO)
| status_changed (o : ResponseOrderDTO).

Definition apply_update (store : list ResponseOrderDTO) (u : Update)
    : list ResponseOrderDTO :=
  match u with
  | new_order o => handleNewOrder o store
  | status_changed o => handleStatusChange o store
  end.

(** Frames dispatched one after the other. *)
Definition dispatch (s : State) (frames : list (string * Parsed)) : State :=
  foldl (fun s '(now, f) => onmessage now f s) s frames.

(** A frame the handler cannot read: [JSON.parse] or the read of
    [data.type] throws. *)
Definition unreadable (p : Parsed) : bool :=
  match p with
  | SyntaxError | JsonNull => true
  | JsonObject _ => false
  end.

(** A fetch that failed: the promise rejected, or the envelope is missing
    or carries a [response] other than 200. *)
Definition fetch_failed (outcome : Axios.Outcome) : bool :=
  match outcome with
  | Axios.Rejected _ => true
  | Axios.Resolved None => true
  | Axios.Resolved (Some body) => negb (PrimFloat.eqb (Axios.response body) 200)
  end.

(** Every live channel is the one [socketRef.current] refers to. *)
Definition single_live (s : State) : Prop :=
  forall (i : nat) (ws : WebSocket),
    sockets s !! i = Some ws -> live ws = true -> socketRef s = Some i.

(** The request [fetchOrders] sends for a branch. *)
Definition fetch_request (branch : string) : Request :=
  {| request_url := API_URL +:+ "/api/v1/Order/GetOrdersByBranchId/" +:+ branch;
     settled := false |}.

(** The function both handlers map over the store: an entry with the key of
    [o] becomes [o], any other entry stays. *)
Definition replacing (o : ResponseOrderDTO) : ResponseOrderDTO -> ResponseOrderDTO :=
  fun x => if strict_eq (orderID x) (orderID o) then o else x.

(** *** Sample data *)

Definition sample_item : ResponseOrderItemDTO :=
  {| orderItemID := "OI-1"; itemID := "I-1"; itemName := "Tea";
     soldPrice := 10; discountedPercentage := Some 10%float;
     taxedPercentage := 5; quantity := 2 |}.


Definition sample_order (id : option string) (branch status : string)
    : ResponseOrderDTO :=
  {| orderID := id; branchID := branch; orderNumber := 1;
     orderType := "Dine-in"; orderStatus := status; orderNote := None;
     orderCancelMessage := None; paymentType := "Cash"; totalPrice := 18.5;
     isPaid := false; createdAt := "2024-01-01T00:00:00Z";
     items := [sample_item] |}.

Definition O1 : ResponseOrderDTO := sample_order (Some "O1") "B1" "Pending".
Definition O1' : ResponseOrderDTO := sample_order (Some "O1") "B1" "Preparing".
Definition O2 : ResponseOrderDTO := sample_order (Some "O2") "B1" "Pending".
Definition OA : ResponseOrderDTO := sample_order (Some "OA") "A" "Pending".

(** A payload without [orderID]. *)
Definition no_id : ResponseOrderDTO := sample_order None "B1" "Pending".

(** A browser whose [WebSocket] constructor accepts every URL. *)
Definition accepts_all : string -> bool := fun _ => false.

(** The envelope of a successful fetch. *)
Definition ok_body (fetched : list ResponseOrderDTO) : Axios.Body :=
  {| Axios.response := 200; Axios.data := Some fetched; Axios.message := None |}.

(** A session on branch B1 that ends with the channel closed, and the
    reconnect to the same branch that follows it. *)
Definition first_session : list (string * Event) :=
  [("09:00:00", ChangeBranchId "B1"); ("09:00:01", ClickConnect);
   ("09:00:02", SocketOpen 0); ("09:05:00", SocketClose 0)].

Definition reconnect : list (string * Event) :=
  [("09:06:00", ClickConnect); ("09:06:01", SocketOpen 1)].

(** A fetch is sent for branch A while the component is connected to A
    (requests 0 and 1; the first has been answered); the user disconnects,
    moves to branch B and connects there (request 2).  The fetch for B
    settles first, the one sent under the connection to A last. *)
Definition stale_trace : list (string * Event) :=
  [("09:00:00", ChangeBranchId "A");
   ("09:00:01", FetchSettled 0 (Axios.Resolved (Some (ok_body []))));
   ("09:00:02", ClickConnect); ("09:00:03", SocketOpen 0);
   ("09:00:04", ClickRefresh);
   ("09:00:05", ClickDisconnect); ("09:00:06", SocketClose 0);
   ("09:00:07", ChangeBranchId "B");
   ("09:00:08", ClickConnect); ("09:00:09", SocketOpen 1);
   ("09:00:10", FetchSettled 2 (Axios.Resolved (Some (ok_body []))));
   ("09:00:11", FetchSettled 1 (Axios.Resolved (Some (ok_body [OA]))))].

(** ** The order form and the commands (lines 56-69 and 213-300) *)

Module Form.
(** [interface OrderItem]. *)
Record OrderItem := {
  itemID : string;
  quantity : float;
  soldPrice : float;
  discountedPercentage : option float;
}.

(** [interface CreateOrderDTO]. *)
Record CreateOrderDTO := {
  branchID : string;
  orderType : string;
  orderNote : option string;
  paymentType : string;
  items : list OrderItem;
}.
End Form.

Module Put.
(** [interface UpdateOrderStatusDTO]; the [orderID] is the one read off a
    stored order. *)
Record UpdateOrderStatusDTO := {
  orderID : option string;
  orderStatus : string;
}.
End Put.

(** How the promise of [axios.post] or [axios.put] ends for the handler:
    something is thrown inside the [try] (the promise rejects, or
    [response.data] cannot be read) and [catch] sees [error.message], or
    [response.data] is there with its [response] and [message]. *)
Inductive CommandOutcome :=
| Thrown (error_message : string)
| Answered (response : float) (message : option string).

(** A call of [axios.post] made by [createOrder], and one of [axios.put]
    made by [updateOrderStatus]. *)
Record PostRequest := { post_body : Form.CreateOrderDTO; post_settled : bool }.
Record PutRequest := { put_body : Put.UpdateOrderStatusDTO; put_settled : bool }.

(** The whole component: the cells and the browser of [State], the two form
    cells [newOrder] and [newItem], and the commands sent. *)
Record Page := {
  sync : State;
  newOrder : Form.CreateOrderDTO;
  newItem : Form.OrderItem;
  posts : list PostRequest;
  puts : list PutRequest;
}.

(** The form as [createOrder] resets it (lines 238-244); lines 56-62 start
    from the same value with an empty [branchID]. *)
Definition blank_order (branch : string) : Form.CreateOrderDTO :=
  {| Form.branchID := branch; Form.orderType := "Dine-in";
     Form.orderNote := Some ""; Form.paymentType := "Cash"; Form.items := [] |}.

(** Lines 65-69 and 267-271: the item fields when empty. *)
Definition blank_item : Form.OrderItem :=
  {| Form.itemID := ""; Form.quantity := 1; Form.soldPrice := 0;
     Form.discountedPercentage := None |}.

Definition initial_page : Page :=
  {| sync := initial; newOrder := blank_order ""; newItem := blank_item;
     posts := []; puts := [] |}.

(** A handler of the synchronisation part, run on the whole component. *)
Definition on_sync (f : State -> State) (p : Page) : Page :=
  {| sync := f (sync p); newOrder := newOrder p; newItem := newItem p;
     posts := posts p; puts := puts p |}.

Definition setNewOrder (updater : Form.CreateOrderDTO -> Form.CreateOrderDTO)
    (p : Page) : Page :=
  {| sync := sync p; newOrder := updater (newOrder p); newItem := newItem p;
     posts := posts p; puts := puts p |}.

Definition setNewItem (item : Form.OrderItem) (p : Page) : Page :=
  {| sync := sync p; newOrder := newOrder p; newItem := item;
     posts := posts p; puts := puts p |}.

Definition set_posts (l : list PostRequest) (p : Page) : Page :=
  {| sync := sync p; newOrder := newOrder p; newItem := newItem p;
     posts := l; puts := puts p |}.

Definition set_puts (l : list PutRequest) (p : Page) : Page :=
  {| sync := sync p; newOrder := newOrder p; newItem := newItem p;
     posts := posts p; puts := l |}.

(** [x || fallback] for a number [x]. *)
Definition number_or (x fallback : float) : float :=
  if truthy x then x else fallback.

(** Lines 461-504: the [onChange] handlers of the item fields.  [parsed] is
    what [parseInt] or [parseFloat] made of the field's text ([NaN] when it
    is no number). *)
Definition changeItemID (v : string) (p : Page) : Page :=
  setNewItem {| Form.itemID := v; Form.quantity := Form.quantity (newItem p);
                Form.soldPrice := Form.soldPrice (newItem p);
                Form.discountedPercentage := Form.discountedPercentage (newItem p) |} p.

Definition changeQuantity (parsed : float) (p : Page) : Page :=
  setNewItem {| Form.itemID := Form.itemID (newItem p);
                Form.quantity := number_or parsed 1;
                Form.soldPrice := Form.soldPrice (newItem p);
                Form.discountedPercentage := Form.discountedPercentage (newItem p) |} p.

Definition changeSoldPrice (parsed : float) (p : Page) : Page :=
  setNewItem {| Form.itemID := Form.itemID (newItem p);
                Form.quantity := Form.quantity (newItem p);
                Form.soldPrice := number_or parsed 0;
                Form.discountedPercentage := Form.discountedPercentage (newItem p) |} p.

Definition changeDiscount (parsed : float) (p : Page) : Page :=
  setNewItem {| Form.itemID := Form.itemID (newItem p);
                Form.quantity := Form.quantity (newItem p);
                Form.soldPrice := Form.soldPrice (newItem p);
                Form.discountedPercentage :=
                  if truthy parsed then Some parsed else None |} p.

(** Lines 375-409: the [onChange] handlers of the order fields,
    [setNewOrder({ ...newOrder, field: e.target.value })]. *)
Definition changeOrderType (v : string) (p : Page) : Page :=
  setNewOrder (fun _ =>
    {| Form.branchID := Form.branchID (newOrder p); Form.orderType := v;
       Form.orderNote := Form.orderNote (newOrder p);
       Form.paymentType := Form.paymentType (newOrder p);
       Form.items := Form.items (newOrder p) |}) p.

Definition changePaymentType (v : string) (p : Page) : Page :=
  setNewOrder (fun _ =>
    {| Form.branchID := Form.branchID (newOrder p);
       Form.orderType := Form.orderType (newOrder p);
       Form.orderNote := Form.orderNote (newOrder p); Form.paymentType := v;
       Form.items := Form.items (newOrder p) |}) p.

Definition changeOrderNote (v : string) (p : Page) : Page :=
  setNewOrder (fun _ =>
    {| Form.branchID := Form.branchID (newOrder p);
       Form.orderType := Form.orderType (newOrder p);
       Form.orderNote := Some v;
       Form.paymentType := Form.paymentType (newOrder p);
       Form.items := Form.items (newOrder p) |}) p.

(** The guard of line 256:
    [!newItem.itemID || newItem.quantity < 1 || newItem.soldPrice <= 0]. *)
Definition item_rejected (item : Form.OrderItem) : bool :=
  bool_decide (Form.itemID item = "")
  || PrimFloat.ltb (Form.quantity item) 1
  || PrimFloat.leb (Form.soldPrice item) 0.

(** Lines 255-272: [addItemToOrder]. *)
Definition addItemToOrder (p : Page) : Page :=
  if item_rejected (newItem p)
  then on_sync (alert "Please fill in all item fields with valid values") p
  else
    setNewItem blank_item
      (setNewOrder (fun prev =>
         {| Form.branchID := Form.branchID prev; Form.orderType := Form.orderType prev;
            Form.orderNote := Form.orderNote prev;
            Form.paymentType := Form.paymentType prev;
            Form.items := Form.items prev ++ [newItem p] |}) p).

(** Lines 214-232: [createOrder] up to the [await]; the body posted is
    [{ ...newOrder, branchID: branchId }]. *)
Definition createOrder (p : Page) : Page :=
  if bool_decide (branchId (sync p) = "") || bool_decide (Form.items (newOrder p) = [])
  then on_sync (alert "Please enter branch ID and at least one item") p
  else
    let orderToCreate :=
      {| Form.branchID := branchId (sync p);
         Form.orderType := Form.orderType (newOrder p);
         Form.orderNote := Form.orderNote (newOrder p);
         Form.paymentType := Form.paymentType (newOrder p);
         Form.items := Form.items (newOrder p) |} in
    set_posts (posts p ++ [{| post_body := orderToCreate; post_settled := false |}]) p.

(** Lines 234-251: [createOrder] after the [await]; [branch] is the
    [branchId] of the render the call was made in. *)
Definition createOrder_settled (now branch : string) (outcome : CommandOutcome)
    (p : Page) : Page :=
  match outcome with
  | Answered response message =>
      if PrimFloat.eqb response 200 then
        setNewOrder (fun _ => blank_order branch)
          (on_sync (addConnectionMessage now "Order created successfully") p)
      else
        on_sync (addConnectionMessage now
                   ("Error creating order: " +:+ interpolate message)) p
  | Thrown error_message =>
      on_sync (addConnectionMessage now ("Error creating order: " +:+ error_message))
        (on_sync (to_console (console_error "Error creating order:")) p)
  end.

(** Lines 275-285: [updateOrderStatus] up to the [await]. *)
Definition updateOrderStatus (id : option string) (newStatus : string) (p : Page) : Page :=
  set_puts (puts p ++
            [{| put_body := {| Put.orderID := id; Put.orderStatus := newStatus |};
                put_settled := false |}]) p.

(** Lines 287-299: [updateOrderStatus] after the [await]. *)
Definition updateOrderStatus_settled (now : string) (id : option string)
    (newStatus : string) (outcome : CommandOutcome) (p : Page) : Page :=
  match outcome with
  | Answered response message =>
      if PrimFloat.eqb response 200 then
        on_sync (addConnectionMessage now
                   ("Order " +:+ interpolate id +:+ " status updated to " +:+ newStatus)) p
      else
        on_sync (addConnectionMessage now
                   ("Error updating order status: " +:+ interpolate message)) p
  | Thrown error_message =>
      on_sync (addConnectionMessage now ("Error updating status: " +:+ error_message))
        (on_sync (to_console (console_error "Error updating order status:")) p)
  end.

(** The five status buttons under every order (lines 648-683) and the
    status each one sends. *)
Inductive StatusButton :=
| PendingButton | PreparingButton | ReadyButton | CompletedButton | CancelButton.

Definition button_status (b : StatusButton) : string :=
  match b with
  | PendingButton => "Pending"
  | PreparingButton => "Preparing"
  | ReadyButton => "Ready"
  | CompletedButton => "Completed"
  | CancelButton => "Cancelled"
  end.

(** What can happen to the whole component: an event of the
    synchronisation part, an edit of the form, a click on Add Item, the
    submission of the form, a click on a status button of the order shown
    at position [i], or the end of a command. *)
Inductive PageEvent :=
| Sync (e : Event)
| ChangeOrderType (v : string)
| ChangePaymentType (v : string)
| ChangeOrderNote (v : string)
| ChangeItemID (v : string)
| ChangeQuantity (parsed : float)
| ChangeSoldPrice (parsed : float)
| ChangeDiscount (parsed : float)
| ClickAddItem
| SubmitOrder
| PostSettled (k : nat) (outcome : CommandOutcome)
| ClickStatus (i : nat) (b : StatusButton)
| PutSettled (k : nat) (outcome : CommandOutcome).

Section PageSteps.

Variable WebSocket_throws : string -> bool.

(** One event of the whole component.  The Create Order button is disabled
    while not connected or without items (line 518); a command settles
    once. *)
Definition page_step (p : Page) (timed : string * PageEvent) : Page :=
  let (now, e) := timed in
  match e with
  | Sync e => on_sync (fun s => step WebSocket_throws s (now, e)) p
  | ChangeOrderType v => changeOrderType v p
  | ChangePaymentType v => changePaymentType v p
  | ChangeOrderNote v => changeOrderNote v p
  | ChangeItemID v => changeItemID v p
  | ChangeQuantity parsed => changeQuantity parsed p
  | ChangeSoldPrice parsed => changeSoldPrice parsed p
  | ChangeDiscount parsed => changeDiscount parsed p
  | ClickAddItem => addItemToOrder p
  | SubmitOrder =>
      if negb (isConnected (sync p)) || bool_decide (Form.items (newOrder p) = [])
      then p else createOrder p
  | PostSettled k outcome =>
      match posts p !! k with
      | Some {| post_body := body; post_settled := false |} =>
          createOrder_settled now (Form.branchID body) outcome
            (set_posts (<[k := {| post_body := body; post_settled := true |}]> (posts p)) p)
      | _ => p
      end
  | ClickStatus i b =>
      match orders (sync p) !! i with
      | Some order => updateOrderStatus (orderID order) (button_status b) p
      | None => p
      end
  | PutSettled k outcome =>
      match puts p !! k with
      | Some {| put_body := body; put_settled := false |} =>
          updateOrderStatus_settled now (Put.orderID body) (Put.orderStatus body) outcome
            (set_puts (<[k := {| put_body := body; put_settled := true |}]> (puts p)) p)
      | _ => p
      end
  end.

Definition page_run (p : Page) (trace : list (string * PageEvent)) : Page :=
  foldl page_step p trace.

End PageSteps.

(** *** Notions used by the statements about the form *)

(** An item as the form accepts it: an id, a quantity of at least 1 and a
    positive price. *)
Definition valid_item (item : Form.OrderItem) : bool :=
  negb (bool_decide (Form.itemID item = ""))
  && PrimFloat.leb 1 (Form.quantity item)
  && PrimFloat.ltb 0 (Form.soldPrice item).

(** The item fields hold numbers: the quantity is neither [NaN] nor zero,
    the price is not [NaN], and a discount, when there is one, is neither
    [NaN] nor zero. *)
Definition sanitised (item : Form.OrderItem) : bool :=
  truthy (Form.quantity item)
  && negb (PrimFloat.is_nan (Form.soldPrice item))
  && match Form.discountedPercentage item with
     | Some d => truthy d
     | None => true
     end.

(** A body [createOrder] may post. *)
Definition well_formed_order (body : Form.CreateOrderDTO) : Prop :=
  Form.branchID body <> "" /\ Form.items body <> [] /\
  Forall (fun item => valid_item item = true /\ sanitised item = true) (Form.items body).

(** The events that may write the order store. *)
Definition may_write_store (e : PageEvent) : bool :=
  match e with
  | Sync (SocketMessage _ _) | Sync (FetchSettled _ _) => true
  | _ => false
  end.

(** The state of the connection: the sockets with their states, the
    reference, and the flag. *)
Definition connected_means_open (s : State) : Prop :=
  isConnected s = true ->
  exists i ws, socketRef s = Some i /\ sockets s !! i = Some ws /\
               (readyState ws = OPEN \/ readyState ws = CLOSING).

(** The address every socket is opened on, for a branch. *)
Definition orders_endpoint (branch : string) : string :=
  "wss://aroided-pos-api-dev.azurewebsites.net/ws/orders?branchId=" +:+ branch.

(** Nothing the component has logged, shown, requested or opened is taken
    back between two states. *)
Definition grows (s s' : State) : Prop :=
  connectionMessages s `prefix_of` connectionMessages s' /\
  console s `prefix_of` console s' /\
  alerts s `prefix_of` alerts s' /\
  (request_url <$> requests s) `prefix_of` (request_url <$> requests s') /\
  (url <$> sockets s) `prefix_of` (url <$> sockets s').

(** Sample data of the form. *)
Definition tea : Form.OrderItem :=
  {| Form.itemID := "I-1"; Form.quantity := 2; Form.soldPrice := 10;
     Form.discountedPercentage := Some 10%float |}.

Definition form_session : list (string * PageEvent) :=
  [("09:00:00", Sync (ChangeBranchId "B1")); ("09:00:01", Sync ClickConnect);
   ("09:00:02", Sync (SocketOpen 0));
   ("09:00:03", ChangeItemID "I-1"); ("09:00:04", ChangeQuantity 2);
   ("09:00:05", ChangeSoldPrice 10); ("09:00:06", ChangeDiscount 10);
   ("09:00:07", ClickAddItem); ("09:00:08", SubmitOrder)].

(** Connect is clicked twice before the first socket opens; the second
    socket opens, then the close event of the first arrives. *)
Definition replaced_socket_closes : list (string * Event) :=
  [("09:00:00", ChangeBranchId "B1"); ("09:00:01", ClickConnect);
   ("09:00:02", ClickConnect); ("09:00:03", SocketOpen 1)].

(** Two states with the same connection, store, branch and requests; they
    may differ in what was logged and alerted. *)
Definition same_core (s s' : State) : Prop :=
  branchId s' = branchId s /\ isConnected s' = isConnected s /\
  orders s' = orders s /\ socketRef s' = socketRef s /\
  sockets s' = sockets s /\ requests s' = requests s.

(** Every socket was opened on the orders endpoint of some branch. *)
Definition opened_on_endpoint (s : State) : Prop :=
  forall i ws, sockets s !! i = Some ws ->
    exists branch, branch <> "" /\ url ws = orders_endpoint branch.

(** A browser whose [WebSocket] constructor throws on every URL. *)
Definition rejects_all : string -> bool := fun _ => true.

(** What events can do to a socket: its address stays, once it is closing
    or closed it is never live again, and once closed it stays closed. *)
Definition fate (ws ws' : WebSocket) : Prop :=
  url ws' = url ws /\ (live ws = false -> live ws' = false) /\
  (readyState ws = CLOSED -> readyState ws' = CLOSED).

(** Nothing is taken back from the whole component either: besides the
    logs of [grows], the commands sent stay as they were sent. *)
Definition page_grows (p p' : Page) : Prop :=
  grows (sync p) (sync p') /\
  (post_body <$> posts p) `prefix_of` (post_body <$> posts p') /\
  (put_body <$> puts p) `prefix_of` (put_body <$> puts p').

(** What the form keeps true: the item fields hold numbers, every item
    taken into the order is valid, and every order posted was well
    formed. *)
Definition form_invariant (p : Page) : Prop :=
  sanitised (newItem p) = true /\
  Forall (fun item => valid_item item = true /\ sanitised item = true)
         (Form.items (newOrder p)) /\
  Forall (fun post => well_formed_order (post_body post)) (posts p).

(** ** Order store *)

Section Store.
Implicit Types (o : ResponseOrderDTO) (prev store : list ResponseOrderDTO).

Lemma strict_eq_refl (a : option string) : strict_eq a a = true.
Proof. unfold strict_eq. by rewrite bool_decide_eq_true. Qed.

Lemma strict_eq_true (a b : option string) : strict_eq a b = true <-> a = b.
Proof. unfold strict_eq. by rewrite bool_decide_eq_true. Qed.

Lemma strict_eq_false (a b : option string) : strict_eq a b = false <-> a <> b.
Proof. unfold strict_eq. by rewrite bool_decide_eq_false. Qed.

Lemma replacing_key o x : orderID (replacing o x) = orderID x.
Proof.
  unfold replacing. destruct (strict_eq _ _) eqn:E; [|done].
  by apply strict_eq_true in E.
Qed.

Lemma replacing_idem o x : replacing o (replacing o x) = replacing o x.
Proof.
  unfold replacing. destruct (strict_eq (orderID x) _) eqn:E.
  - by rewrite strict_eq_refl.
  - by rewrite E.
Qed.

Lemma handleStatusChange_map o prev : handleStatusChange o prev = map (replacing o) prev.
Proof. done. Qed.

Lemma absent_map_id o prev :
  existsb (fun x => strict_eq (orderID x) (orderID o)) prev = false ->
  map (replacing o) prev = prev.
Proof.
  induction prev as [|x prev IH]; simpl; [done|].
  intros [Hx Hp]%orb_false_iff. unfold replacing at 1. by rewrite Hx, IH.
Qed.

Lemma keys_map_replacing o prev : keys (map (replacing o) prev) = keys prev.
Proof.
  unfold keys. rewrite map_map. apply map_ext. intros x. apply replacing_key.
Qed.

Lemma existsb_keys o prev :
  existsb (fun x => strict_eq (orderID x) (orderID o)) prev = true <->
  In (orderID o) (keys prev).
Proof.
  rewrite existsb_exists. unfold keys. rewrite in_map_iff.
  split; intros (x & H1 & H2); exists x.
  - apply strict_eq_true in H2. done.
  - split; [done|]. by apply strict_eq_true.
Qed.

Lemma handleNewOrder_present o prev :
  In (orderID o) (keys prev) -> handleNewOrder o prev = map (replacing o) prev.
Proof. intros H%existsb_keys. unfold handleNewOrder. by rewrite H. Qed.

Lemma handleNewOrder_absent o prev :
  ~ In (orderID o) (keys prev) -> handleNewOrder o prev = prev ++ [o].
Proof.
  intros H. unfold handleNewOrder.
  destruct (existsb _ prev) eqn:E; [|done].
  by apply existsb_keys in E.
Qed.

Lemma keys_handleStatusChange o prev : keys (handleStatusChange o prev) = keys prev.
Proof. apply keys_map_replacing. Qed.

Lemma keys_handleNewOrder_present o prev :
  In (orderID o) (keys prev) -> keys (handleNewOrder o prev) = keys prev.
Proof. intros H. rewrite handleNewOrder_present by done. apply keys_map_replacing. Qed.

Lemma keys_handleNewOrder_absent o prev :
  ~ In (orderID o) (keys prev) ->
  keys (handleNewOrder o prev) = keys prev ++ [orderID o].
Proof.
  intros H. rewrite handleNewOrder_absent by done. unfold keys. by rewrite map_app.
Qed.

Lemma key_dec o prev : {In (orderID o) (keys prev)} + {~ In (orderID o) (keys prev)}.
Proof. apply in_dec. intros a b. destruct (decide (a = b)); [by left|by right]. Qed.

Lemma NoDup_keys_handleNewOrder o prev :
  NoDup (keys prev) -> NoDup (keys (handleNewOrder o prev)).
Proof.
  intros Hnd. destruct (key_dec o prev) as [Hin|Hin].
  - by rewrite keys_handleNewOrder_present.
  - rewrite keys_handleNewOrder_absent by done.
    apply NoDup_app. split; [done|]. split.
    + intros k Hk ->%list_elem_of_singleton. apply Hin. by apply list_elem_of_In.
    + apply NoDup_singleton.
Qed.

Lemma NoDup_keys_apply_update (u : Update) store :
  NoDup (keys store) -> NoDup (keys (apply_update store u)).
Proof.
  destruct u as [o|o]; simpl.
  - apply NoDup_keys_handleNewOrder.
  - by rewrite keys_handleStatusChange.
Qed.

(** [get] after an update. *)
Lemma get_map_replacing_same o prev :
  In (orderID o) (keys prev) -> get (orderID o) (map (replacing o) prev) = Some o.
Proof.
  unfold get. induction prev as [|x prev IH]; simpl; [done|].
  intros Hin. rewrite replacing_key.
  destruct (strict_eq (orderID x) (orderID o)) eqn:E.
  - unfold replacing. by rewrite E.
  - apply IH. destruct Hin as [Hx|Hin]; [|done].
    apply strict_eq_false in E. done.
Qed.

Lemma get_map_replacing_other o prev (id : option string) :
  id <> orderID o -> get id (map (replacing o) prev) = get id prev.
Proof.
  intros Hne. unfold get. induction prev as [|x prev IH]; simpl; [done|].
  rewrite replacing_key. destruct (strict_eq (orderID x) id) eqn:E; [|done].
  unfold replacing. destruct (strict_eq (orderID x) (orderID o)) eqn:E'; [|done].
  apply strict_eq_true in E, E'. congruence.
Qed.

Lemma get_None store (id : option string) : get id store = None <-> ~ In id (keys store).
Proof.
  unfold get, keys. induction store as [|x store IH]; simpl; [tauto|].
  destruct (strict_eq (orderID x) id) eqn:E.
  - apply strict_eq_true in E. split; [done|]. intros H. destruct H. by left.
  - apply strict_eq_false in E. rewrite IH. tauto.
Qed.

Lemma get_app_absent store (id : option string) o :
  get id (store ++ [o]) =
  match get id store with
  | Some x => Some x
  | None => if strict_eq (orderID o) id then Some o else None
  end.
Proof.
  unfold get. induction store as [|x store IH]; simpl; [done|].
  by destruct (strict_eq (orderID x) id).
Qed.
End Store.

(** C1. Upsert is idempotent: for every order [o] (valid or not) and every
    store, applying the [new_order] upsert [handleNewOrder] with [o] twice
    in succession gives the store that applying it once gives; the same
    holds for the two [setOrders] calls on the component state. *)
Theorem handleNewOrder_idempotent (o : ResponseOrderDTO) (s : State) :
  handleNewOrder o (handleNewOrder o (orders s)) = handleNewOrder o (orders s) /\
  orders (setOrders (handleNewOrder o) (setOrders (handleNewOrder o) s))
  = orders (setOrders (handleNewOrder o) s).
Proof.
  assert (forall prev, handleNewOrder o (handleNewOrder o prev) = handleNewOrder o prev)
    as Hidem.
  { intros prev. destruct (key_dec o prev) as [Hin|Hin].
    - rewrite (handleNewOrder_present o prev Hin).
      rewrite handleNewOrder_present by (by rewrite keys_map_replacing).
      rewrite map_map. apply map_ext. intros x. apply replacing_idem.
    - rewrite (handleNewOrder_absent o prev Hin).
      rewrite handleNewOrder_present.
      + rewrite map_app. simpl. unfold replacing at 2. rewrite strict_eq_refl.
        f_equal. apply absent_map_id.
        destruct (existsb _ prev) eqn:E; [|done]. by apply existsb_keys in E.
      + unfold keys. rewrite map_app. apply in_or_app. right. by left. }
  split; [apply Hidem|]. simpl. apply Hidem.
Qed.

(** C2. Key uniqueness is an invariant: from a store whose orderIDs are
    pairwise distinct, any sequence of [new_order] upserts
    ([handleNewOrder]) and [status_changed] updates ([handleStatusChange])
    leads to a store whose orderIDs are pairwise distinct. *)
Theorem key_uniqueness_invariant (store : list ResponseOrderDTO) (updates : list Update) :
  NoDup (keys store) -> NoDup (keys (foldl apply_update store updates)).
Proof.
  revert store. induction updates as [|u updates IH]; intros store Hnd; simpl; [done|].
  apply IH. by apply NoDup_keys_apply_update.
Qed.

Lemma key_uniqueness_invariant_witness :
  NoDup (keys (foldl apply_update [O1] [new_order O2; status_changed O1'; new_order O1])).
Proof.
  apply (key_uniqueness_invariant [O1] [new_order O2; status_changed O1'; new_order O1]).
  apply NoDup_singleton.
Defined.

(** ** Dispatcher *)

Lemma orders_onmessage_new_order now o s :
  orders (onmessage now (frame "new_order" o) s) = handleNewOrder o (orders s).
Proof. reflexivity. Qed.

Lemma orders_onmessage_status_changed now o s :
  orders (onmessage now (frame "status_changed" o) s) = handleStatusChange o (orders s).
Proof. reflexivity. Qed.

(** C3, as stated, fails: a [status_changed] frame for an orderID the store
    does not hold inserts nothing. *)
Lemma status_changed_does_not_insert :
  let s := onmessage "10:00:00" (frame "status_changed" O1) initial in
  get (orderID O1) (orders initial) = None /\
  orders s = [] /\
  get (orderID O1) (orders s) <> Some O1.
Proof. vm_compute. split; [done|]. split; [done|]. discriminate. Qed.

(** C3, amended. A [new_order] frame is applied as an insert-or-fully-replace
    upsert by orderID: afterwards the store holds [o] under its key, every
    other key reads as before, an unseen key is appended and a known one
    keeps the keys as they were.  A [status_changed] frame replaces the
    entry of a known key by [o], exactly as [new_order] does, and leaves the
    store as it was for an unseen key. *)
Theorem dispatch_upsert_by_orderID (now : string) (o : ResponseOrderDTO) (s : State)
    (id : option string) :
  let before := orders s in
  let after_new := orders (onmessage now (frame "new_order" o) s) in
  let after_status := orders (onmessage now (frame "status_changed" o) s) in
  get (orderID o) after_new = Some o /\
  (id <> orderID o ->
     get id after_new = get id before /\ get id after_status = get id before) /\
  (get (orderID o) before = None ->
     after_new = before ++ [o] /\ after_status = before) /\
  (get (orderID o) before <> None ->
     get (orderID o) after_status = Some o /\
     after_new = after_status /\
     keys after_new = keys before).
Proof.
  intros before after_new after_status.
  subst after_new after_status.
  rewrite orders_onmessage_new_order, orders_onmessage_status_changed.
  fold before. rewrite handleStatusChange_map.
  destruct (key_dec o before) as [Hin|Hin].
  - rewrite (handleNewOrder_present o before Hin).
    split; [by apply get_map_replacing_same|].
    split; [intros Hne; by rewrite get_map_replacing_other|].
    split.
    + intros Hnone%get_None. done.
    + intros _. split; [by apply get_map_replacing_same|].
      split; [done|]. apply keys_map_replacing.
  - rewrite (handleNewOrder_absent o before Hin).
    assert (get (orderID o) before = None) as Hnone by by apply get_None.
    split; [by rewrite get_app_absent, Hnone, strict_eq_refl|].
    split.
    + intros Hne. split; [|by rewrite get_map_replacing_other].
      rewrite get_app_absent. destruct (get id before); [done|].
      destruct (strict_eq (orderID o) id) eqn:E; [|done].
      apply strict_eq_true in E. congruence.
    + split; [|done]. intros _. split; [done|].
      apply absent_map_id. destruct (existsb _ before) eqn:E; [|done].
      by apply existsb_keys in E.
Qed.

Lemma dispatch_upsert_by_orderID_witness :
  get (Some "O2") (orders (onmessage "10:00:00" (frame "new_order" O1')
                             (setOrders (fun _ => [O1; O2]) initial)))
  = get (Some "O2") [O1; O2] /\
  orders (onmessage "10:00:00" (frame "new_order" O1) initial) = [O1] /\
  get (Some "O1") (orders (onmessage "10:00:00" (frame "status_changed" O1')
                             (setOrders (fun _ => [O1; O2]) initial)))
  = Some O1'.
Proof.
  split; [|split].
  - apply (dispatch_upsert_by_orderID "10:00:00" O1'
             (setOrders (fun _ => [O1; O2]) initial) (Some "O2")).
    discriminate.
  - apply (dispatch_upsert_by_orderID "10:00:00" O1 initial None). reflexivity.
  - apply (dispatch_upsert_by_orderID "10:00:00" O1'
             (setOrders (fun _ => [O1; O2]) initial) None).
    discriminate.
Defined.

(** ** Money *)



(** *** Strings: lengths and pieces *)

Section Strings.
Implicit Types (s t a b : string).












End Strings.

(** *** Rounding to hundredths *)







(** The double of the sample, read exactly, is above 18.9 by less than
    half a hundredth, which the two decimals of [toFixed] absorb. *)
Remark lineTotal_sample_inexact :
  lineTotal sample_item <> (189 / 10)%float /\
  float_value (189 / 10)%float = Some (5319877059831398 # 281474976710656)%Q.
Proof.
  split; [|reflexivity]. intros H.
  apply (f_equal Prim2SF) in H. vm_compute in H. discriminate H.
Qed.

(** ** Dispatcher resilience *)

(** The store after a frame depends on the frame and the store before it,
    on nothing else of the state. *)
Lemma orders_onmessage_ext now now' f s s' :
  orders s = orders s' ->
  orders (onmessage now f s) = orders (onmessage now' f s').
Proof.
  intros H. destruct f as [| |m]; simpl; [done|done|].
  repeat case_bool_decide; simpl; by rewrite ?H.
Qed.

Lemma orders_dispatch_ext frames s s' :
  orders s = orders s' -> orders (dispatch s frames) = orders (dispatch s' frames).
Proof.
  revert s s'. induction frames as [|[now f] frames IH]; intros s s' H; simpl; [done|].
  apply IH. by apply orders_onmessage_ext.
Qed.

(** C5, as stated, fails: a [new_order] frame whose payload has no orderID
    parses, is not rejected, logs no error and is stored. *)
Lemma missing_orderID_is_stored :
  orderID no_id = None /\
  orders (onmessage "10:00:01" (frame "new_order" no_id) initial) = [no_id] /\
  orders (onmessage "10:00:01" (frame "new_order" no_id) initial) <> orders initial /\
  console (onmessage "10:00:01" (frame "new_order" no_id) initial)
  = [console_log "Received message:"].
Proof. repeat split; try reflexivity. discriminate. Qed.

(** C5, amended. A frame that cannot be read ([JSON.parse] throws, or the
    parsed value is [null]) is dropped: the handler logs the error to the
    console and changes nothing else, so the store is as before and every
    later frame is dispatched as if the frame had not come; between two
    [new_order] frames it blocks neither.  A frame that parses is not
    validated: a [new_order] payload is upserted whatever it holds. *)
Theorem unreadable_frame_dropped (now : string) (bad : Parsed) (s : State) :
  unreadable bad = true ->
  onmessage now bad s
  = to_console (console_error "Error parsing WebSocket message:") s /\
  orders (onmessage now bad s) = orders s /\
  (forall frames,
     orders (dispatch (onmessage now bad s) frames) = orders (dispatch s frames)) /\
  (forall t1 t2 o1 o2,
     orders (dispatch s [(t1, frame "new_order" o1); (now, bad);
                         (t2, frame "new_order" o2)])
     = handleNewOrder o2 (handleNewOrder o1 (orders s))) /\
  (forall o, orders (onmessage now (frame "new_order" o) s)
             = handleNewOrder o (orders s)).
Proof.
  intros Hbad.
  assert (forall s0, onmessage now bad s0
            = to_console (console_error "Error parsing WebSocket message:") s0) as Hdrop.
  { intros s0. by destruct bad. }
  split; [apply Hdrop|]. split; [by rewrite Hdrop|].
  split; [intros frames; apply orders_dispatch_ext; by rewrite Hdrop|].
  split; [|done].
  intros t1 t2 o1 o2. unfold dispatch. cbn [foldl]. rewrite Hdrop.
  rewrite orders_onmessage_new_order.
  change (orders (to_console ?e ?x)) with (orders x).
  by rewrite orders_onmessage_new_order.
Qed.

Lemma unreadable_frame_dropped_witness :
  orders (dispatch initial [("10:00:00", frame "new_order" O1);
                            ("10:00:01", SyntaxError);
                            ("10:00:02", frame "new_order" O2)])
  = handleNewOrder O2 (handleNewOrder O1 []).
Proof.
  exact (proj1 (proj2 (proj2 (proj2
           (unreadable_frame_dropped "10:00:01" SyntaxError initial eq_refl))))
           "10:00:00" "10:00:02" O1 O2).
Defined.

(** ** Reconciliation *)

(** C6. Reconciliation is non-destructive on failure: when the fetch fails
    (the promise rejects, or the envelope is missing or carries a response
    other than 200), the continuation of [fetchOrders] logs the error to the
    console and changes nothing else, so the store is the store before the
    call; the same holds when the request settles in the running
    component. *)
Theorem fetch_failure_keeps_store (now : string) (outcome : Axios.Outcome) (s : State) :
  fetch_failed outcome = true ->
  fetchOrders_settled now outcome s
  = to_console (console_error "Error fetching orders:") s /\
  orders (fetchOrders_settled now outcome s) = orders s /\
  (forall throws r, orders (step throws s (now, FetchSettled r outcome)) = orders s).
Proof.
  intros Hfail.
  assert (forall s0, fetchOrders_settled now outcome s0
            = to_console (console_error "Error fetching orders:") s0) as Hlog.
  { intros s0. destruct outcome as [err|[body|]]; simpl in *; [done| |done].
    destruct (PrimFloat.eqb (Axios.response body) 200); [discriminate|done]. }
  split; [apply Hlog|]. split; [by rewrite Hlog|].
  intros throws r. simpl.
  destruct (requests s !! r) as [[u [|]]|]; [done| |done].
  by rewrite Hlog.
Qed.

Lemma fetch_failure_keeps_store_witness :
  orders (fetchOrders_settled "10:00:00" (Axios.Rejected "Network Error")
            (setOrders (fun _ => [O1; O2]) initial))
  = [O1; O2].
Proof.
  apply (fetch_failure_keeps_store "10:00:00" (Axios.Rejected "Network Error")
           (setOrders (fun _ => [O1; O2]) initial)).
  reflexivity.
Defined.

(** ** Connection *)

(** C7. Connect rejects empty input synchronously: with an empty
    [branchId], [connectWebSocket] shows the alert and returns; no socket is
    constructed or closed, and the connection state, the store, the log and
    the requests are as before. *)
Theorem connect_rejects_empty_branchId (throws : string -> bool) (now : string)
    (s : State) :
  branchId s = "" ->
  let s' := connectWebSocket throws now s in
  s' = alert "Please enter a Branch ID" s /\
  alerts s' = alerts s ++ ["Please enter a Branch ID"] /\
  sockets s' = sockets s /\ socketRef s' = socketRef s /\
  isConnected s' = isConnected s /\ orders s' = orders s /\
  connectionMessages s' = connectionMessages s /\ requests s' = requests s.
Proof.
  intros Hempty s'. subst s'. unfold connectWebSocket.
  rewrite bool_decide_eq_true_2 by done. done.
Qed.

Lemma connect_rejects_empty_branchId_witness :
  connectWebSocket accepts_all "10:00:00" initial = alert "Please enter a Branch ID" initial /\
  sockets (connectWebSocket accepts_all "10:00:00" initial) = [].
Proof.
  split.
  - apply (connect_rejects_empty_branchId accepts_all "10:00:00" initial). reflexivity.
  - apply (connect_rejects_empty_branchId accepts_all "10:00:00" initial). reflexivity.
Defined.

(** C8, as stated, fails: on a reconnect to the same branch the connection
    enters Connected and no fetch is sent; the only request of the whole
    run is the one the branch id entry caused before the first connect. *)
Lemma reconnect_triggers_no_fetch :
  isConnected (run accepts_all initial first_session) = false /\
  isConnected (run accepts_all initial (first_session ++ reconnect)) = true /\
  branchId (run accepts_all initial (first_session ++ reconnect)) = "B1" /\
  readyState <$> sockets (run accepts_all initial (first_session ++ reconnect))
  = [CLOSED; OPEN] /\
  requests (run accepts_all initial (first_session ++ reconnect))
  = requests (run accepts_all initial first_session) /\
  requests (run accepts_all initial (first_session ++ reconnect)) = [fetch_request "B1"].
Proof. repeat split; reflexivity. Qed.

(** C8, amended. A reconciliation fetch for a branch is sent when the
    branch id changes to a non-empty value, and by the Refresh button.  The
    open event of a socket and the connect call send none, so entering
    Connected triggers no fetch, on a first connection and on a reconnect
    alike. *)
Theorem fetch_sent_on_branch_change_only (throws : string -> bool) (now : string)
    (s : State) :
  (forall i, requests (step throws s (now, SocketOpen i)) = requests s) /\
  requests (step throws s (now, ClickConnect)) = requests s /\
  (forall v, v <> branchId s -> v <> "" ->
     requests (step throws s (now, ChangeBranchId v)) = requests s ++ [fetch_request v]) /\
  (forall v, v = branchId s \/ v = "" ->
     requests (step throws s (now, ChangeBranchId v)) = requests s) /\
  requests (step throws s (now, ClickRefresh))
  = requests s ++ [fetch_request (branchId s)].
Proof.
  split; [|split; [|split; [|split]]].
  - intros i. simpl. by destruct (sockets s !! i) as [[u [| | |]]|].
  - simpl. destruct (isConnected s); [done|]. unfold connectWebSocket.
    case_bool_decide; [done|].
    destruct (socketRef s) as [r|]; simpl; [|by destruct (throws _)].
    unfold close. destruct (sockets s !! r) as [ws|]; [|by destruct (throws _)].
    destruct (live ws); by destruct (throws _).
  - intros v Hne Hv. simpl. unfold onChange, branchId_effect.
    rewrite bool_decide_eq_false_2 by done. simpl.
    by rewrite bool_decide_eq_false_2 by done.
  - intros v Hv. simpl. unfold onChange, branchId_effect.
    case_bool_decide; [done|]. simpl.
    destruct Hv as [Hv|Hv]; [done|]. by rewrite bool_decide_eq_true_2 by done.
  - done.
Qed.

Lemma fetch_sent_on_branch_change_only_witness :
  requests (step accepts_all initial ("09:00:00", ChangeBranchId "B1"))
  = [fetch_request "B1"] /\
  requests (step accepts_all initial ("09:00:00", ChangeBranchId "")) = [].
Proof.
  split.
  - apply (fetch_sent_on_branch_change_only accepts_all "09:00:00" initial);
      discriminate.
  - apply (fetch_sent_on_branch_change_only accepts_all "09:00:00" initial).
    right. reflexivity.
Defined.

(** C9, as stated, fails: a fetch sent for branch A while the manager is
    connected to A settles after the manager has disconnected, moved to
    branch B and connected there, and its result replaces the store with
    the data of branch A. *)
Lemma stale_fetch_is_applied :
  branchId (run accepts_all initial stale_trace) = "B" /\
  isConnected (run accepts_all initial stale_trace) = true /\
  url <$> sockets (run accepts_all initial stale_trace)
  = ["wss://aroided-pos-api-dev.azurewebsites.net/ws/orders?branchId=A";
     "wss://aroided-pos-api-dev.azurewebsites.net/ws/orders?branchId=B"] /\
  readyState <$> sockets (run accepts_all initial stale_trace) = [CLOSED; OPEN] /\
  request_url <$> requests (run accepts_all initial stale_trace)
  = [request_url (fetch_request "A"); request_url (fetch_request "A");
     request_url (fetch_request "B")] /\
  orders (run accepts_all initial stale_trace) = [OA] /\
  branchID OA = "A".
Proof. repeat split; reflexivity. Qed.

(** C9, amended. No reconciliation is tagged with an epoch: when a pending
    fetch settles with response 200 and a data array, that array replaces
    the store, whatever the branch id and the socket are at that moment,
    so also when the fetch was issued for an earlier branch.  A request
    settles once; a second settlement changes nothing. *)
Theorem fetch_result_applied_when_it_arrives (throws : string -> bool) (now : string)
    (s : State) (r : nat) (u : string) (body : Axios.Body)
    (fetched : list ResponseOrderDTO) :
  requests s !! r = Some {| request_url := u; settled := false |} ->
  PrimFloat.eqb (Axios.response body) 200 = true ->
  Axios.data body = Some fetched ->
  let s' := step throws s (now, FetchSettled r (Axios.Resolved (Some body))) in
  orders s' = fetched /\
  branchId s' = branchId s /\ socketRef s' = socketRef s /\
  forall now' outcome, step throws s' (now', FetchSettled r outcome) = s'.
Proof.
  intros Hr H200 Hdata s'. subst s'. simpl. rewrite Hr. simpl.
  rewrite H200, Hdata. simpl. split; [done|]. split; [done|]. split; [done|].
  intros now' outcome. rewrite list_lookup_insert_eq; [done|].
  by apply lookup_lt_Some in Hr.
Qed.

Lemma fetch_result_applied_when_it_arrives_witness :
  orders (step accepts_all
            (run accepts_all initial [("09:00:00", ChangeBranchId "A");
                                      ("09:00:05", ChangeBranchId "B")])
            ("09:00:09", FetchSettled 0 (Axios.Resolved (Some (ok_body [OA])))))
  = [OA].
Proof.
  apply (fetch_result_applied_when_it_arrives accepts_all "09:00:09"
           (run accepts_all initial [("09:00:00", ChangeBranchId "A");
                                     ("09:00:05", ChangeBranchId "B")])
           0 (request_url (fetch_request "A")) (ok_body [OA]) [OA]);
    reflexivity.
Defined.

(** ** At most one live channel *)

Section SingleLive.
Variable throws : string -> bool.
Implicit Types (s : State) (ws : WebSocket).

Lemma single_live_initial : single_live initial.
Proof. intros i ws H. done. Qed.

(** The invariant reads the sockets and the reference only. *)
Lemma single_live_same s s' :
  sockets s' = sockets s -> socketRef s' = socketRef s ->
  single_live s -> single_live s'.
Proof. intros Hs Hr H i ws. rewrite Hs, Hr. apply H. Qed.

(** It survives every change that keeps the reference and makes no
    socket live that was not. *)
Lemma single_live_fewer s s' :
  socketRef s' = socketRef s ->
  (forall i ws', sockets s' !! i = Some ws' -> live ws' = true ->
     exists ws, sockets s !! i = Some ws /\ live ws = true) ->
  single_live s -> single_live s'.
Proof.
  intros Hr Hfewer H i ws' Hi Hlive. rewrite Hr.
  destruct (Hfewer i ws' Hi Hlive) as (ws & Hws & Hl). by apply (H i ws).
Qed.

Lemma lookup_set_readyState s i j st ws' :
  sockets (set_readyState i st s) !! j = Some ws' ->
  exists ws, sockets s !! j = Some ws /\
    ws' = if decide (i = j) then {| url := url ws; readyState := st |} else ws.
Proof.
  simpl. destruct (decide (i = j)) as [->|Hne].
  - rewrite list_lookup_alter_eq. destruct (sockets s !! j) as [ws|]; simpl; [|done].
    intros [= <-]. by exists ws.
  - rewrite list_lookup_alter_ne by done. intros H. by exists ws'.
Qed.

Lemma single_live_set_readyState s i st :
  (live {| url := ""; readyState := st |} = true ->
     exists ws, sockets s !! i = Some ws /\ live ws = true) ->
  single_live s -> single_live (set_readyState i st s).
Proof.
  intros Hst. apply single_live_fewer; [done|].
  intros j ws' (ws & Hws & ->)%lookup_set_readyState Hlive.
  destruct (decide (i = j)) as [->|]; [|by exists ws].
  apply Hst. by destruct st.
Qed.

Lemma single_live_close s i : single_live s -> single_live (close i s).
Proof.
  intros H. unfold close. destruct (sockets s !! i) as [ws|]; [|done].
  destruct (live ws); [|done]. by apply single_live_set_readyState.
Qed.

(** Closing the referenced socket leaves no live socket at all. *)
Lemma close_referenced_none_live s r :
  single_live s -> socketRef s = Some r ->
  forall i ws, sockets (close r s) !! i = Some ws -> live ws = false.
Proof.
  intros H Hr i ws. unfold close.
  destruct (sockets s !! r) as [wr|] eqn:Hwr.
  - destruct (live wr) eqn:Hlr.
    + intros (w & Hw & ->)%lookup_set_readyState.
      destruct (decide (r = i)) as [->|Hne]; [done|].
      destruct (live w) eqn:Hl; [|done].
      specialize (H i w Hw Hl). congruence.
    + intros Hi. destruct (live ws) eqn:Hl; [|done].
      specialize (H i ws Hi Hl). congruence.
  - intros Hi. destruct (live ws) eqn:Hl; [|done].
    specialize (H i ws Hi Hl). congruence.
Qed.

Lemma unreferenced_none_live s :
  single_live s -> socketRef s = None ->
  forall i ws, sockets s !! i = Some ws -> live ws = false.
Proof.
  intros H Hr i ws Hi. destruct (live ws) eqn:Hl; [|done].
  specialize (H i ws Hi Hl). congruence.
Qed.

(** A new socket appended to sockets none of which is live, and
    referenced, is the single live one. *)
Lemma single_live_fresh s ws :
  (forall i w, sockets s !! i = Some w -> live w = false) ->
  single_live (set_socketRef (Some (length (sockets s)))
                 (set_sockets (sockets s ++ [ws]) s)).
Proof.
  intros Hnone i w. simpl. intros Hi Hl.
  destruct (decide (i < length (sockets s))) as [Hlt|Hge].
  - rewrite lookup_app_l in Hi by done. rewrite (Hnone i w Hi) in Hl. done.
  - apply lookup_lt_Some in Hi. rewrite length_app in Hi. simpl in Hi.
    f_equal. lia.
Qed.

Lemma single_live_connectWebSocket now s :
  single_live s -> single_live (connectWebSocket throws now s).
Proof.
  intros H. unfold connectWebSocket. case_bool_decide; [done|].
  set (s1 := match socketRef s with Some i => close i s | None => s end).
  assert (single_live s1) as H1.
  { subst s1. destruct (socketRef s); [by apply single_live_close|done]. }
  assert (forall i w, sockets s1 !! i = Some w -> live w = false) as Hnone.
  { subst s1. destruct (socketRef s) as [r|] eqn:Hr.
    - by apply close_referenced_none_live.
    - by apply unreferenced_none_live. }
  destruct (throws _).
  - revert H1. by apply single_live_same.
  - apply (single_live_fresh (addConnectionMessage now _ s1)). apply Hnone.
Qed.

Lemma single_live_step s e : single_live s -> single_live (step throws s e).
Proof.
  intros H. destruct e as [now [v| | | |i|i f|i|i|r outcome]]; simpl.
  - unfold onChange, branchId_effect. repeat case_bool_decide; done.
  - destruct (isConnected s); [done|]. by apply single_live_connectWebSocket.
  - destruct (isConnected s); [|done]. unfold disconnect.
    destruct (socketRef s) as [r|]; [|done].
    generalize (single_live_close s r H). by apply single_live_same.
  - done.
  - destruct (sockets s !! i) as [[u [| | |]]|] eqn:Hi; try done.
    assert (single_live (set_readyState i OPEN s)) as H'.
    { apply single_live_set_readyState; [|done]. intros _. by eexists. }
    revert H'. by apply single_live_same.
  - destruct (sockets s !! i) as [[u [| | |]]|]; try done.
    revert H. apply single_live_same; [|].
    + destruct f as [| |m]; simpl; [done|done|]. by repeat case_bool_decide.
    + destruct f as [| |m]; simpl; [done|done|]. by repeat case_bool_decide.
  - by destruct (sockets s !! i) as [[u [| | |]]|].
  - assert (single_live (set_readyState i CLOSED s)) as H'.
    { by apply single_live_set_readyState. }
    destruct (sockets s !! i) as [[u [| | |]]|]; try done;
      revert H'; by apply single_live_same.
  - destruct (requests s !! r) as [[u [|]]|]; try done.
    revert H. apply single_live_same.
    + destruct outcome as [err|[body|]]; simpl; try done.
      destruct (PrimFloat.eqb _ _); [|done]. by destruct (Axios.data body).
    + destruct outcome as [err|[body|]]; simpl; try done.
      destruct (PrimFloat.eqb _ _); [|done]. by destruct (Axios.data body).
Qed.

Lemma single_live_run trace s : single_live s -> single_live (run throws s trace).
Proof.
  revert s. induction trace as [|e trace IH]; intros s H; simpl; [done|].
  apply IH. by apply single_live_step.
Qed.
End SingleLive.

(** C10. At most one channel is ever live per manager: [connectWebSocket]
    with a non-empty branch id closes the socket it holds before it
    constructs the next one, and in every state the component reaches, by
    connect calls and any other events, a live socket is the one
    [socketRef.current] refers to, so no two sockets are live. *)
Theorem at_most_one_live_channel (throws : string -> bool) :
  (forall now s r ws ws',
     single_live s -> branchId s <> "" ->
     socketRef s = Some r -> sockets s !! r = Some ws ->
     sockets (connectWebSocket throws now s) !! r = Some ws' -> live ws' = false) /\
  (forall now s, single_live s -> single_live (connectWebSocket throws now s)) /\
  (forall trace, single_live (run throws initial trace)) /\
  (forall trace i j wi wj,
     sockets (run throws initial trace) !! i = Some wi -> live wi = true ->
     sockets (run throws initial trace) !! j = Some wj -> live wj = true ->
     i = j).
Proof.
  split; [|split; [|split]].
  - intros now s r ws ws' H Hb Hr Hws. unfold connectWebSocket.
    rewrite bool_decide_eq_false_2 by done. rewrite Hr.
    pose proof (close_referenced_none_live s r H Hr) as Hnone.
    apply lookup_lt_Some in Hws.
    assert (length (sockets (close r s)) = length (sockets s)) as Hlen.
    { unfold close. destruct (sockets s !! r) as [w|]; [|done].
      destruct (live w); [|done]. simpl. by rewrite length_alter. }
    destruct (throws _); simpl.
    + apply Hnone.
    + rewrite lookup_app_l by lia. apply Hnone.
  - intros now s. apply single_live_connectWebSocket.
  - intros trace. apply single_live_run, single_live_initial.
  - intros trace i j wi wj Hi Hli Hj Hlj.
    pose proof (single_live_run throws trace initial single_live_initial) as H.
    pose proof (H i wi Hi Hli) as Ei. pose proof (H j wj Hj Hlj) as Ej. congruence.
Qed.

Lemma at_most_one_live_channel_witness :
  live <$> sockets (run accepts_all initial (first_session ++ reconnect))
  = [false; true] /\
  single_live (connectWebSocket accepts_all "09:10:00"
                 (run accepts_all initial (first_session ++ reconnect))).
Proof.
  split; [reflexivity|].
  apply (at_most_one_live_channel accepts_all).
  apply (at_most_one_live_channel accepts_all).
Defined.

(** ** Further facts about the running component *)

(** Key uniqueness also survives every sequence of frames, whatever their
    types. *)
Lemma NoDup_keys_dispatch (frames : list (string * Parsed)) (s : State) :
  NoDup (keys (orders s)) -> NoDup (keys (orders (dispatch s frames))).
Proof.
  revert s. induction frames as [|[now f] frames IH]; intros s Hnd; simpl; [done|].
  apply IH. destruct f as [| |m]; simpl; [done|done|].
  repeat case_bool_decide; simpl; try done.
  - by apply NoDup_keys_handleNewOrder.
  - by rewrite keys_handleStatusChange.
Qed.

(** The URL the socket of branch B1 is opened on. *)
Example wsUrl_B1 :
  url <$> sockets (run accepts_all initial first_session)
  = ["wss://aroided-pos-api-dev.azurewebsites.net/ws/orders?branchId=B1"].
Proof. reflexivity. Qed.

(** A session from the entry of the branch id to a status change: the fetch
    returns no orders, a [new_order] frame brings O1, a [status_changed]
    frame moves it to Preparing. *)
Example session_B1 :
  let s := run accepts_all initial
             [("09:00:00", ChangeBranchId "B1");
              ("09:00:01", FetchSettled 0 (Axios.Resolved (Some (ok_body []))));
              ("09:00:02", ClickConnect); ("09:00:03", SocketOpen 0);
              ("09:00:04", SocketMessage 0 (frame "new_order" O1));
              ("09:00:05", SocketMessage 0 (frame "status_changed" O1'))] in
  orders s = [O1'] /\
  orderStatus <$> get (Some "O1") (orders s) = Some "Preparing" /\
  connectionMessages s
  = ["[09:00:01] Fetched 0 orders";
     "[09:00:02] Connecting to wss://aroided-pos-api-dev.azurewebsites.net/ws/orders?branchId=B1...";
     "[09:00:03] Connected to WebSocket server";
     "[09:00:04] Received: new_order";
     "[09:00:05] Received: status_changed"].
Proof. repeat split; reflexivity. Qed.

(** ** More about the order store *)

Section StoreAlgebra.
Implicit Types (o x : ResponseOrderDTO) (prev store : list ResponseOrderDTO).

Lemma replacing_replacing o1 o2 x :
  orderID o1 = orderID o2 -> replacing o2 (replacing o1 x) = replacing o2 x.
Proof.
  intros Hk. unfold replacing. rewrite Hk.
  destruct (strict_eq (orderID x) (orderID o2)) eqn:E.
  - by rewrite <- Hk, strict_eq_refl.
  - by rewrite E.
Qed.

Lemma absent_existsb o prev :
  ~ In (orderID o) (keys prev) ->
  existsb (fun x => strict_eq (orderID x) (orderID o)) prev = false.
Proof.
  intros H. destruct (existsb _ prev) eqn:E; [|done]. by apply existsb_keys in E.
Qed.

Lemma get_handleNewOrder o prev (id : option string) :
  get id (handleNewOrder o prev)
  = if strict_eq (orderID o) id then Some o else get id prev.
Proof.
  destruct (strict_eq (orderID o) id) eqn:E.
  - apply strict_eq_true in E. subst id.
    destruct (key_dec o prev) as [Hin|Hin].
    + rewrite handleNewOrder_present by done. by apply get_map_replacing_same.
    + rewrite handleNewOrder_absent by done. rewrite get_app_absent.
      rewrite (proj2 (get_None prev (orderID o)) Hin). by rewrite strict_eq_refl.
  - apply strict_eq_false in E.
    destruct (key_dec o prev) as [Hin|Hin].
    + rewrite handleNewOrder_present by done. by apply get_map_replacing_other.
    + rewrite handleNewOrder_absent by done. rewrite get_app_absent.
      destruct (get id prev); [done|].
      by rewrite (proj2 (strict_eq_false _ _) E).
Qed.

Lemma length_handleNewOrder o prev :
  length (handleNewOrder o prev)
  = if existsb (fun x => strict_eq (orderID x) (orderID o)) prev
    then length prev else S (length prev).
Proof.
  unfold handleNewOrder. destruct (existsb _ prev).
  - by rewrite length_map.
  - rewrite length_app. simpl. lia.
Qed.

Lemma existsb_handleNewOrder_other o1 o2 prev :
  orderID o1 <> orderID o2 ->
  existsb (fun x => strict_eq (orderID x) (orderID o1)) (handleNewOrder o2 prev)
  = existsb (fun x => strict_eq (orderID x) (orderID o1)) prev.
Proof.
  intros Hne.
  assert (forall l, In (orderID o1) (keys (handleNewOrder o2 l)) <-> In (orderID o1) (keys l))
    as Hiff.
  { intros l. destruct (key_dec o2 l) as [Hin|Hin].
    - by rewrite keys_handleNewOrder_present.
    - rewrite keys_handleNewOrder_absent by done. rewrite in_app_iff. simpl.
      split; [|tauto]. intros [H|[H|[]]]; [done|]. by destruct Hne. }
  destruct (existsb (fun x => strict_eq (orderID x) (orderID o1)) prev) eqn:E.
  - apply existsb_keys. apply Hiff. by apply existsb_keys.
  - destruct (existsb _ (handleNewOrder o2 prev)) eqn:E'; [|done].
    apply (proj1 (existsb_keys _ _)), (proj1 (Hiff _)), (proj2 (existsb_keys _ _)) in E'.
    by rewrite E in E'.
Qed.
End StoreAlgebra.

(** X1. Last write wins: two upserts under the same orderID leave the store
    that the second alone leaves. *)
Theorem upsert_last_write_wins (o1 o2 : ResponseOrderDTO) (prev : list ResponseOrderDTO) :
  orderID o1 = orderID o2 ->
  handleNewOrder o2 (handleNewOrder o1 prev) = handleNewOrder o2 prev.
Proof.
  intros Hk. destruct (key_dec o1 prev) as [Hin|Hin].
  - rewrite (handleNewOrder_present o1 prev Hin).
    rewrite (handleNewOrder_present o2 prev) by (by rewrite <- Hk).
    rewrite handleNewOrder_present by (by rewrite keys_map_replacing, <- Hk).
    rewrite map_map. apply map_ext. intros x. by apply replacing_replacing.
  - rewrite (handleNewOrder_absent o1 prev Hin).
    rewrite (handleNewOrder_absent o2 prev) by (by rewrite <- Hk).
    rewrite handleNewOrder_present.
    + rewrite map_app. simpl. unfold replacing at 2.
      rewrite Hk, strict_eq_refl. f_equal. apply absent_map_id.
      apply absent_existsb. by rewrite <- Hk.
    + unfold keys. rewrite map_app, in_app_iff. right. left. done.
Qed.

Lemma upsert_last_write_wins_witness :
  handleNewOrder O1' (handleNewOrder O1 [O2]) = handleNewOrder O1' [O2].
Proof. apply (upsert_last_write_wins O1 O1' [O2]). reflexivity. Defined.

(** X2. Upserts under different orderIDs commute as far as the store can be
    read: every lookup and the number of entries are the same in either
    order. *)
Theorem upserts_of_distinct_keys_commute (o1 o2 : ResponseOrderDTO)
    (prev : list ResponseOrderDTO) (id : option string) :
  orderID o1 <> orderID o2 ->
  get id (handleNewOrder o1 (handleNewOrder o2 prev))
  = get id (handleNewOrder o2 (handleNewOrder o1 prev)) /\
  length (handleNewOrder o1 (handleNewOrder o2 prev))
  = length (handleNewOrder o2 (handleNewOrder o1 prev)).
Proof.
  intros Hne. split.
  - rewrite !get_handleNewOrder.
    destruct (strict_eq (orderID o1) id) eqn:E1, (strict_eq (orderID o2) id) eqn:E2;
      try done.
    apply strict_eq_true in E1, E2. congruence.
  - rewrite !length_handleNewOrder.
    rewrite (existsb_handleNewOrder_other o1 o2) by done.
    rewrite (existsb_handleNewOrder_other o2 o1) by done.
    by destruct (existsb (fun x => strict_eq (orderID x) (orderID o1)) prev),
         (existsb (fun x => strict_eq (orderID x) (orderID o2)) prev).
Qed.

Lemma upserts_of_distinct_keys_commute_witness :
  get (Some "O2") (handleNewOrder O1 (handleNewOrder O2 []))
  = get (Some "O2") (handleNewOrder O2 (handleNewOrder O1 [])).
Proof. apply (upserts_of_distinct_keys_commute O1 O2 [] (Some "O2")). discriminate. Defined.

(** X3. After an upsert of [o] the store holds [o], and every entry under
    the orderID of [o] is [o] itself, also when the store held that
    orderID more than once. *)
Theorem upsert_replaces_every_entry (o x : ResponseOrderDTO)
    (prev : list ResponseOrderDTO) :
  o ∈ handleNewOrder o prev /\
  (x ∈ handleNewOrder o prev -> orderID x = orderID o -> x = o).
Proof.
  destruct (key_dec o prev) as [Hin|Hin].
  - rewrite handleNewOrder_present by done. split.
    + apply in_map_iff in Hin as (y & Hy & Hiny).
      apply list_elem_of_In, in_map_iff. exists y. split; [|done].
      unfold replacing. by rewrite (proj2 (strict_eq_true _ _) Hy).
    + intros (y & <- & Hiny)%list_elem_of_In%in_map_iff Hk.
      rewrite replacing_key in Hk. unfold replacing.
      by rewrite (proj2 (strict_eq_true _ _) Hk).
  - rewrite handleNewOrder_absent by done. split.
    + apply list_elem_of_In, in_or_app. right. by left.
    + intros [Hx| ->%list_elem_of_singleton]%elem_of_app Hk; [|done].
      destruct Hin. rewrite <- Hk. apply in_map. by apply list_elem_of_In.
Qed.

Lemma upsert_replaces_every_entry_witness :
  O1' ∈ handleNewOrder O1' [O1; O2; O1] /\
  get (Some "O1") (handleNewOrder O1' [O1; O2; O1]) = Some O1'.
Proof.
  split.
  - apply (upsert_replaces_every_entry O1' O1' [O1; O2; O1]).
  - reflexivity.
Defined.

(** X4. An upsert keeps every entry at its position: an entry under
    another orderID is untouched, and the store grows by one entry at the
    end exactly when the orderID was not there. *)
Theorem upsert_keeps_positions (o : ResponseOrderDTO) (prev : list ResponseOrderDTO) :
  (forall i x, prev !! i = Some x -> orderID x <> orderID o ->
     handleNewOrder o prev !! i = Some x) /\
  (forall i x, prev !! i = Some x -> orderID x = orderID o ->
     handleNewOrder o prev !! i = Some o) /\
  (get (orderID o) prev = None ->
     handleNewOrder o prev !! length prev = Some o /\
     length (handleNewOrder o prev) = S (length prev)) /\
  (get (orderID o) prev <> None -> length (handleNewOrder o prev) = length prev).
Proof.
  assert (forall i x, prev !! i = Some x ->
            handleNewOrder o prev !! i = Some (replacing o x)) as Hpos.
  { intros i x Hi. destruct (key_dec o prev) as [Hin|Hin].
    - rewrite handleNewOrder_present by done. by rewrite list_lookup_fmap, Hi.
    - rewrite handleNewOrder_absent by done.
      rewrite lookup_app_l by (by eapply lookup_lt_Some). rewrite Hi. f_equal.
      unfold replacing. destruct (strict_eq (orderID x) (orderID o)) eqn:E; [|done].
      apply strict_eq_true in E. destruct Hin. rewrite <- E.
      apply in_map. apply list_elem_of_In. by eapply list_elem_of_lookup_2. }
  split; [|split; [|split]].
  - intros i x Hi Hne. rewrite (Hpos i x Hi). unfold replacing.
    by rewrite (proj2 (strict_eq_false _ _) Hne).
  - intros i x Hi He. rewrite (Hpos i x Hi). unfold replacing.
    by rewrite (proj2 (strict_eq_true _ _) He).
  - intros Hnone%get_None. rewrite handleNewOrder_absent by done. split.
    + by rewrite list_lookup_middle.
    + rewrite length_app. simpl. lia.
  - intros Hsome. rewrite handleNewOrder_present.
    + apply length_map.
    + destruct (key_dec o prev) as [Hin|Hin]; [done|]. by apply get_None in Hin.
Qed.

Lemma upsert_keeps_positions_witness :
  handleNewOrder O1' [O2; O1] !! 0 = Some O2 /\
  handleNewOrder O1' [O2; O1] !! 1 = Some O1' /\
  length (handleNewOrder OA [O2; O1]) = 3.
Proof.
  split; [|split].
  - apply (proj1 (upsert_keeps_positions O1' [O2; O1]) 0 O2); [reflexivity|discriminate].
  - apply (proj1 (proj2 (upsert_keeps_positions O1' [O2; O1])) 1 O1); reflexivity.
  - apply (upsert_keeps_positions OA [O2; O1]). reflexivity.
Defined.

(** X5. A status change never adds or removes an entry and never moves
    one; it is idempotent, and next to an upsert of the same snapshot it
    changes nothing. *)
Theorem status_change_keeps_keys (o : ResponseOrderDTO) (prev : list ResponseOrderDTO) :
  keys (handleStatusChange o prev) = keys prev /\
  handleStatusChange o (handleStatusChange o prev) = handleStatusChange o prev /\
  handleStatusChange o (handleNewOrder o prev) = handleNewOrder o prev /\
  handleNewOrder o (handleStatusChange o prev) = handleNewOrder o prev.
Proof.
  split; [apply keys_handleStatusChange|].
  rewrite !handleStatusChange_map.
  split; [|split].
  - rewrite map_map. apply map_ext. intros x. apply replacing_idem.
  - destruct (key_dec o prev) as [Hin|Hin].
    + rewrite handleNewOrder_present by done.
      rewrite map_map. apply map_ext. intros x. apply replacing_idem.
    + rewrite handleNewOrder_absent by done. rewrite map_app. simpl.
      unfold replacing at 2. rewrite strict_eq_refl. f_equal.
      by apply absent_map_id, absent_existsb.
  - destruct (key_dec o prev) as [Hin|Hin].
    + rewrite (handleNewOrder_present o prev Hin).
      rewrite handleNewOrder_present by (by rewrite keys_map_replacing).
      rewrite map_map. apply map_ext. intros x. apply replacing_idem.
    + by rewrite absent_map_id by (by apply absent_existsb).
Qed.

(** ** More about the dispatcher *)

Lemma onmessage_connection now f s :
  branchId (onmessage now f s) = branchId s /\
  isConnected (onmessage now f s) = isConnected s /\
  socketRef (onmessage now f s) = socketRef s /\
  sockets (onmessage now f s) = sockets s /\
  alerts (onmessage now f s) = alerts s /\
  requests (onmessage now f s) = requests s.
Proof. destruct f as [| |m]; simpl; [done|done|]. by repeat case_bool_decide. Qed.



(** ** More about the connection *)

Section ConnectionFacts.
Variable throws : string -> bool.
Implicit Types (s : State) (ws : WebSocket).

Lemma connectWebSocket_isConnected now s :
  isConnected s = false -> isConnected (connectWebSocket throws now s) = false.
Proof.
  intros H. unfold connectWebSocket. case_bool_decide; [done|].
  destruct (throws _); [done|]. simpl.
  destruct (socketRef s) as [r|]; [|done].
  unfold close. destruct (sockets s !! r) as [ws|]; [|done]. by destruct (live ws).
Qed.

Lemma close_fields i s :
  isConnected (close i s) = isConnected s /\ socketRef (close i s) = socketRef s /\
  orders (close i s) = orders s /\ branchId (close i s) = branchId s /\
  requests (close i s) = requests s.
Proof.
  unfold close. destruct (sockets s !! i) as [ws|]; [|done]. by destruct (live ws).
Qed.

Lemma lookup_close i j s ws' :
  sockets (close i s) !! j = Some ws' ->
  exists ws, sockets s !! j = Some ws /\ url ws' = url ws /\
    (ws' = ws \/ (i = j /\ live ws = true /\ readyState ws' = CLOSING)).
Proof.
  unfold close. destruct (sockets s !! i) as [wi|] eqn:Hi.
  - destruct (live wi) eqn:Hl.
    + intros (ws & Hws & ->)%lookup_set_readyState. exists ws. split; [done|].
      destruct (decide (i = j)) as [->|]; [|by split; [|left]].
      split; [done|]. right. split; [done|]. split; [|done]. congruence.
    + intros H. exists ws'. by split; [|split; [|left]].
  - intros H. exists ws'. by split; [|split; [|left]].
Qed.

Lemma connected_means_open_step s e :
  single_live s -> connected_means_open s -> connected_means_open (step throws s e).
Proof.
  intros Hsl H. destruct e as [now [v| | | |i|i f|i|i|r outcome]]; simpl.
  - unfold onChange, branchId_effect. repeat case_bool_decide; done.
  - destruct (isConnected s) eqn:Hc; [done|].
    intros Hc'. by rewrite connectWebSocket_isConnected in Hc'.
  - destruct (isConnected s) eqn:Hc; [|done]. unfold disconnect.
    destruct (socketRef s) as [r|] eqn:Hr; [|done].
    intros _. destruct (H Hc) as (i & ws & Hi & Hws & Hst).
    assert (i = r) as -> by congruence.
    exists r. unfold connected_means_open, close. simpl. rewrite Hws.
    destruct ws as [u st]. simpl in Hst.
    destruct Hst as [-> | ->]; simpl.
    + eexists. split; [by rewrite Hr|]. rewrite list_lookup_alter_eq, Hws. simpl.
      split; [done|]. by right.
    + eexists. split; [by rewrite Hr|]. split; [done|]. by right.
  - done.
  - destruct (sockets s !! i) as [[u [| | |]]|] eqn:Hi; try done.
    intros _. exists i. eexists. simpl.
    split; [by apply (Hsl i _ Hi)|].
    rewrite list_lookup_alter_eq, Hi. simpl. split; [done|]. by left.
  - destruct (sockets s !! i) as [[u [| | |]]|]; try done.
    destruct (onmessage_connection now f s) as (_ & Hc & Hr & Hs & _).
    unfold connected_means_open. by rewrite Hc, Hr, Hs.
  - by destruct (sockets s !! i) as [[u [| | |]]|].
  - by destruct (sockets s !! i) as [[u [| | |]]|].
  - destruct (requests s !! r) as [[u [|]]|]; try done.
    unfold connected_means_open.
    destruct outcome as [err|[body|]]; simpl; try done.
    destruct (PrimFloat.eqb _ _); [|done]. by destruct (Axios.data body).
Qed.
End ConnectionFacts.

(** X7. The close event of any socket that is not closed yet, also of one
    that a later connect has replaced, clears the Connected flag and
    leaves every other socket as it is: the flag can be off while the
    socket in use is open. *)
Theorem close_of_any_socket_clears_flag (throws : string -> bool) (now : string)
    (s : State) (i : nat) (ws : WebSocket) :
  sockets s !! i = Some ws -> readyState ws <> CLOSED ->
  let s' := step throws s (now, SocketClose i) in
  isConnected s' = false /\
  socketRef s' = socketRef s /\
  (readyState <$> sockets s' !! i) = Some CLOSED /\
  forall j, j <> i -> sockets s' !! j = sockets s !! j.
Proof.
  intros Hi Hst s'. subst s'. simpl. rewrite Hi.
  destruct ws as [u st]. simpl in Hst.
  assert (forall s0 : State,
     isConnected (onclose now (set_readyState i CLOSED s0)) = false /\
     socketRef (onclose now (set_readyState i CLOSED s0)) = socketRef s0 /\
     sockets (onclose now (set_readyState i CLOSED s0))
     = alter (fun w => {| url := url w; readyState := CLOSED |}) i (sockets s0)) as H.
  { done. }
  destruct (H s) as (Hc & Hr & Hs).
  destruct st; try done; rewrite Hc, Hr, Hs;
    (split; [done|]; split; [done|]; split;
     [by rewrite list_lookup_alter_eq, Hi
     |intros j Hj; by rewrite list_lookup_alter_ne]).
Qed.

Lemma close_of_any_socket_clears_flag_witness :
  readyState <$> sockets (run accepts_all initial replaced_socket_closes)
  = [CLOSING; OPEN] /\
  socketRef (run accepts_all initial replaced_socket_closes) = Some 1 /\
  isConnected (run accepts_all initial replaced_socket_closes) = true /\
  isConnected (step accepts_all (run accepts_all initial replaced_socket_closes)
                 ("09:00:04", SocketClose 0)) = false /\
  sockets (step accepts_all (run accepts_all initial replaced_socket_closes)
             ("09:00:04", SocketClose 0)) !! 1
  = sockets (run accepts_all initial replaced_socket_closes) !! 1.
Proof.
  split; [reflexivity|]. split; [reflexivity|]. split; [reflexivity|].
  split.
  - eapply (close_of_any_socket_clears_flag accepts_all "09:00:04"
              (run accepts_all initial replaced_socket_closes) 0);
      [reflexivity|discriminate].
  - eapply (close_of_any_socket_clears_flag accepts_all "09:00:04"
              (run accepts_all initial replaced_socket_closes) 0);
      [reflexivity|discriminate|discriminate].
Defined.

(** X8. A connect whose socket cannot be constructed still closes the
    socket that was in use: the constructor throwing, no socket is added
    and the reference stays, the socket it refers to is no longer live,
    the flag is cleared and the failure goes to the console; the store is
    untouched. *)
Theorem failed_connect_closes_previous (throws : string -> bool) (now : string)
    (s : State) :
  branchId s <> "" ->
  throws (orders_endpoint (branchId s)) = true ->
  let s' := connectWebSocket throws now s in
  isConnected s' = false /\ socketRef s' = socketRef s /\
  length (sockets s') = length (sockets s) /\
  (forall r ws', socketRef s = Some r -> sockets s' !! r = Some ws' -> live ws' = false) /\
  console s' = console s ++ [console_error "Failed to connect to WebSocket:"] /\
  orders s' = orders s.
Proof.
  intros Hb Ht s'. subst s'. unfold connectWebSocket.
  rewrite bool_decide_eq_false_2 by done.
  change (replace "http://" "ws://" (replace "https://" "wss://" API_URL)
          +:+ "/ws/orders?branchId=" +:+ ?b) with (orders_endpoint b).
  set (s1 := match socketRef s with Some i => close i s | None => s end).
  assert (branchId s1 = branchId s /\ socketRef s1 = socketRef s /\
          orders s1 = orders s /\ console s1 = console s /\
          length (sockets s1) = length (sockets s)) as (Hb1 & Hr1 & Ho1 & Hc1 & Hl1).
  { subst s1. destruct (socketRef s) as [r|] eqn:Hr; [|done]. unfold close.
    destruct (sockets s !! r) as [w|]; [|done]. destruct (live w); [|done].
    simpl. by rewrite length_alter. }
  simpl. rewrite Hb1, Ht. simpl.
  split; [done|]. split; [done|]. split; [done|]. split; [|by rewrite Hc1, Ho1].
  intros r ws' Hr. subst s1. rewrite Hr. unfold close.
  destruct (sockets s !! r) as [w|] eqn:Hw; [|by rewrite Hw].
  destruct (live w) eqn:Hl.
  - simpl. rewrite list_lookup_alter_eq, Hw. simpl. by intros [= <-].
  - rewrite Hw. by intros [= <-].
Qed.

Lemma failed_connect_closes_previous_witness :
  live <$> sockets (connectWebSocket rejects_all "09:10:00"
                      (run accepts_all initial
                         [("09:00:00", ChangeBranchId "B1"); ("09:00:01", ClickConnect);
                          ("09:00:02", SocketOpen 0)]))
  = [false] /\
  isConnected (connectWebSocket rejects_all "09:10:00"
                 (run accepts_all initial
                    [("09:00:00", ChangeBranchId "B1"); ("09:00:01", ClickConnect);
                     ("09:00:02", SocketOpen 0)])) = false.
Proof.
  split; [reflexivity|].
  apply (failed_connect_closes_previous rejects_all "09:10:00"
           (run accepts_all initial
              [("09:00:00", ChangeBranchId "B1"); ("09:00:01", ClickConnect);
               ("09:00:02", SocketOpen 0)])); [discriminate|reflexivity].
Defined.

(** ** More about reconciliation *)

(** X9. A fetch answered with response 200 but without a data array
    empties the store: [setOrders([])] has run when reading the length of
    the missing array throws, so the error goes to the console, no
    "Fetched" line is logged, and the orders held before are gone. *)
Theorem fetch_without_data_empties_store (throws : string -> bool) (now : string)
    (s : State) (r : nat) (u : string) (body : Axios.Body) :
  requests s !! r = Some {| request_url := u; settled := false |} ->
  PrimFloat.eqb (Axios.response body) 200 = true ->
  Axios.data body = None ->
  let s' := step throws s (now, FetchSettled r (Axios.Resolved (Some body))) in
  orders s' = [] /\
  console s' = console s ++ [console_error "Error fetching orders:"] /\
  connectionMessages s' = connectionMessages s.
Proof.
  intros Hr H200 Hdata s'. subst s'. simpl. rewrite Hr. simpl.
  by rewrite H200, Hdata.
Qed.

Lemma fetch_without_data_empties_store_witness :
  orders (step accepts_all
            (setOrders (fun _ => [O1; O2])
               (run accepts_all initial [("09:00:00", ChangeBranchId "B1")]))
            ("09:00:01",
             FetchSettled 0 (Axios.Resolved (Some
               {| Axios.response := 200; Axios.data := None;
                  Axios.message := None |}))))
  = [].
Proof.
  apply (fetch_without_data_empties_store accepts_all "09:00:01"
           (setOrders (fun _ => [O1; O2])
              (run accepts_all initial [("09:00:00", ChangeBranchId "B1")]))
           0 (request_url (fetch_request "B1"))
           {| Axios.response := 200; Axios.data := None; Axios.message := None |});
    reflexivity.
Defined.

(** ** Invariants of the running component *)

Section PageInvariants.
Variable throws : string -> bool.
Implicit Types (s : State) (p : Page) (ws : WebSocket).

(** Every event that is not one of the synchronisation part leaves the
    connection, the store, the branch and the requests alone. *)
Lemma page_step_same_core p now (e : PageEvent) :
  (forall e', e <> Sync e') ->
  same_core (sync p) (sync (page_step throws p (now, e))).
Proof.
  intros He. unfold same_core.
  destruct e as [e'|v|v|v|v|x|x|x| | |k outcome|i b|k outcome]; simpl; try done.
  - by destruct (He e').
  - unfold addItemToOrder. by destruct (item_rejected _).
  - destruct (negb _ || _); [done|]. unfold createOrder. by destruct (_ || _).
  - destruct (posts p !! k) as [[body [|]]|]; try done.
    destruct outcome as [err|response msg]; simpl; [done|].
    by destruct (PrimFloat.eqb _ _).
  - by destruct (orders (sync p) !! i).
  - destruct (puts p !! k) as [[body [|]]|]; try done.
    destruct outcome as [err|response msg]; simpl; [done|].
    by destruct (PrimFloat.eqb _ _).
Qed.

(** A property of the connection, the store, the branch and the requests
    that every event of the synchronisation part keeps holds throughout
    every run of the whole component. *)
Lemma page_run_invariant (P : State -> Prop) :
  (forall s e, P s -> P (step throws s e)) ->
  (forall s s', same_core s s' -> P s -> P s') ->
  forall trace p, P (sync p) -> P (sync (page_run throws p trace)).
Proof.
  intros Hstep Hcore trace.
  induction trace as [|[now e] trace IH]; intros p HP; [done|].
  change (P (sync (page_run throws (page_step throws p (now, e)) trace))).
  apply IH. destruct e as [e'|v|v|v|v|x|x|x| | |k outcome|i b|k outcome];
    [by apply (Hstep (sync p) (now, e'))|..];
    (apply (Hcore (sync p)); [apply page_step_same_core; intros e''; discriminate|done]).
Qed.

Lemma set_readyState_lookup s i j st ws :
  sockets s !! j = Some ws ->
  sockets (set_readyState i st s) !! j
  = Some (if decide (i = j) then {| url := url ws; readyState := st |} else ws).
Proof.
  intros Hj. simpl. destruct (decide (i = j)) as [->|Hne].
  - by rewrite list_lookup_alter_eq, Hj.
  - by rewrite list_lookup_alter_ne.
Qed.



Lemma close_fate s i j ws :
  sockets s !! j = Some ws ->
  exists ws', sockets (close i s) !! j = Some ws' /\ fate ws ws'.
Proof.
  intros Hj. unfold close. destruct (sockets s !! i) as [wi|] eqn:Hi.
  - destruct (live wi) eqn:Hl.
    + rewrite (set_readyState_lookup s i j CLOSING ws Hj).
      destruct (decide (i = j)) as [->|]; [|by eexists].
      eexists. split; [done|]. split; [done|]. split; [done|].
      assert (wi = ws) as -> by congruence.
      unfold live in Hl. by destruct (readyState ws).
    + by eexists.
  - by eexists.
Qed.

Lemma step_fate s e j ws :
  sockets s !! j = Some ws ->
  exists ws', sockets (step throws s e) !! j = Some ws' /\ fate ws ws'.
Proof.
  intros Hj. destruct e as [now [v| | | |i|i f|i|i|r outcome]]; simpl.
  - exists ws. split; [|done]. unfold onChange, branchId_effect.
    by repeat case_bool_decide.
  - destruct (isConnected s); [by exists ws|]. unfold connectWebSocket.
    case_bool_decide; [by exists ws|].
    assert (exists ws', sockets (match socketRef s with
                                 | Some i => close i s | None => s end) !! j = Some ws'
                        /\ fate ws ws') as (ws' & Hj' & Hf).
    { destruct (socketRef s) as [r|]; [by apply close_fate|by exists ws]. }
    exists ws'. split; [|done]. destruct (throws _); simpl; [done|].
    rewrite lookup_app_l; [done|by eapply lookup_lt_Some].
  - destruct (isConnected s); [|by exists ws]. unfold disconnect.
    destruct (socketRef s) as [r|]; [|by exists ws].
    destruct (close_fate s r j ws Hj) as (ws' & Hj' & Hf). by exists ws'.
  - by exists ws.
  - destruct (sockets s !! i) as [[u [| | |]]|] eqn:Hi; try by exists ws.
    eexists. split.
    { change (sockets (onopen now ?x)) with (sockets x).
      by apply set_readyState_lookup. }
    destruct (decide (i = j)) as [->|]; [|done].
    assert (ws = {| url := u; readyState := CONNECTING |}) as -> by congruence.
    done.
  - destruct (sockets s !! i) as [[u [| | |]]|]; try by exists ws.
    exists ws. split; [|done].
    destruct (onmessage_connection now f s) as (_ & _ & _ & Hs & _). by rewrite Hs.
  - by destruct (sockets s !! i) as [[u [| | |]]|]; exists ws.
  - assert (exists ws', sockets (onclose now (set_readyState i CLOSED s)) !! j = Some ws'
                        /\ fate ws ws') as H.
    { eexists. split.
      { change (sockets (onclose now ?x)) with (sockets x).
        by apply set_readyState_lookup. }
      destruct (decide (i = j)); [|done]. done. }
    destruct (sockets s !! i) as [[u [| | |]]|]; first [exact H|by exists ws].
  - exists ws. split; [|done].
    destruct (requests s !! r) as [[u [|]]|]; try done.
    destruct outcome as [err|[body|]]; simpl; try done.
    destruct (PrimFloat.eqb _ _); [|done]. by destruct (Axios.data body).
Qed.

Lemma opened_on_endpoint_step s e :
  opened_on_endpoint s -> opened_on_endpoint (step throws s e).
Proof.
  intros H j ws' Hj'.
  destruct (decide (j < length (sockets s))) as [Hlt|Hge].
  - destruct (lookup_lt_is_Some_2 _ _ Hlt) as [ws Hj].
    destruct (step_fate s e j ws Hj) as (ws'' & Hj'' & Hu & _).
    assert (ws'' = ws') as -> by congruence.
    rewrite Hu. by apply (H j).
  - (* a socket beyond the old ones was constructed by this event *)
    destruct e as [now [v| | | |i|i f|i|i|r outcome]]; simpl in Hj'.
    + exfalso. apply Hge. eapply lookup_lt_Some.
      unfold onChange, branchId_effect in Hj'.
      by repeat case_bool_decide.
    + destruct (isConnected s); [exfalso; apply Hge; by eapply lookup_lt_Some|].
      unfold connectWebSocket in Hj'.
      case_bool_decide as Hb; [exfalso; apply Hge; by eapply lookup_lt_Some|].
      set (s1 := match socketRef s with Some i => close i s | None => s end) in *.
      assert (length (sockets s1) = length (sockets s) /\ branchId s1 = branchId s)
        as [Hlen Hb1].
      { subst s1. destruct (socketRef s) as [r|]; [|done]. unfold close.
        destruct (sockets s !! r) as [w|]; [|done]. destruct (live w); [|done].
        simpl. by rewrite length_alter. }
      destruct (throws _); simpl in Hj'.
      * exfalso. apply Hge. rewrite <- Hlen. by eapply lookup_lt_Some.
      * rewrite lookup_app_r in Hj' by lia.
        destruct (j - length (sockets s1)) as [|n]; [|done].
        simpl in Hj'. injection Hj' as <-. exists (branchId s).
        split; [done|]. simpl. by rewrite Hb1.
    + exfalso. apply Hge. destruct (isConnected s); [|by eapply lookup_lt_Some].
      unfold disconnect in Hj'. destruct (socketRef s) as [r|]; [|by eapply lookup_lt_Some].
      apply lookup_lt_Some in Hj'. simpl in Hj'. unfold close in Hj'.
      destruct (sockets s !! r) as [w|]; [|done]. destruct (live w); [|done].
      simpl in Hj'. by rewrite length_alter in Hj'.
    + exfalso. apply Hge. by eapply lookup_lt_Some.
    + exfalso. apply Hge. apply lookup_lt_Some in Hj'.
      destruct (sockets s !! i) as [[u [| | |]]|]; try done.
      simpl in Hj'. by rewrite length_alter in Hj'.
    + exfalso. apply Hge. apply lookup_lt_Some in Hj'.
      destruct (sockets s !! i) as [[u [| | |]]|]; try done.
      destruct (onmessage_connection now f s) as (_ & _ & _ & Hs & _).
      by rewrite Hs in Hj'.
    + exfalso. apply Hge. apply lookup_lt_Some in Hj'.
      by destruct (sockets s !! i) as [[u [| | |]]|].
    + exfalso. apply Hge. apply lookup_lt_Some in Hj'.
      destruct (sockets s !! i) as [[u [| | |]]|]; try done;
        simpl in Hj'; by rewrite length_alter in Hj'.
    + exfalso. apply Hge. apply lookup_lt_Some in Hj'.
      destruct (requests s !! r) as [[u [|]]|]; try done.
      destruct outcome as [err|[body|]]; simpl in Hj'; try done.
      destruct (PrimFloat.eqb _ _); [|done]. by destruct (Axios.data body).
Qed.
End PageInvariants.

(** X10. The Connected flag is never on without an opened socket: in every
    state the component reaches, when [isConnected] is true then
    [socketRef.current] is a socket that is open, or closing after a
    click on Disconnect. *)
Theorem connected_flag_means_opened_socket (throws : string -> bool)
    (trace : list (string * PageEvent)) :
  connected_means_open (sync (page_run throws initial_page trace)).
Proof.
  apply (page_run_invariant throws
           (fun s => single_live s /\ connected_means_open s)).
  - intros s e [Hsl Hc]. split.
    + by apply single_live_step.
    + by apply connected_means_open_step.
  - intros s s' (_ & Hc & _ & Hr & Hs & _) [Hsl H]. split.
    + revert Hsl. by apply single_live_same.
    + unfold connected_means_open. by rewrite Hc, Hr, Hs.
  - split; [apply single_live_initial|]. intros H. discriminate H.
Qed.

Lemma connected_flag_means_opened_socket_witness :
  exists i ws,
    socketRef (sync (page_run accepts_all initial_page form_session)) = Some i /\
    sockets (sync (page_run accepts_all initial_page form_session)) !! i = Some ws /\
    (readyState ws = OPEN \/ readyState ws = CLOSING).
Proof.
  apply (connected_flag_means_opened_socket accepts_all form_session). reflexivity.
Defined.



(** X12. Every socket the component ever constructs is opened on the
    orders endpoint with the branch id in the query, and that branch id is
    never empty. *)
Theorem sockets_opened_on_orders_endpoint (throws : string -> bool)
    (trace : list (string * PageEvent)) (i : nat) (ws : WebSocket) :
  sockets (sync (page_run throws initial_page trace)) !! i = Some ws ->
  exists branch, branch <> "" /\ url ws = orders_endpoint branch.
Proof.
  revert i ws. change (opened_on_endpoint (sync (page_run throws initial_page trace))).
  apply (page_run_invariant throws opened_on_endpoint).
  - apply opened_on_endpoint_step.
  - intros s s' (_ & _ & _ & _ & Hs & _) H i ws. rewrite Hs. apply H.
  - intros i ws H. done.
Qed.

Lemma sockets_opened_on_orders_endpoint_witness :
  exists branch, branch <> "" /\
    "wss://aroided-pos-api-dev.azurewebsites.net/ws/orders?branchId=B1"
    = orders_endpoint branch.
Proof.
  apply (sockets_opened_on_orders_endpoint accepts_all form_session 0
           {| url := "wss://aroided-pos-api-dev.azurewebsites.net/ws/orders?branchId=B1";
              readyState := OPEN |}).
  reflexivity.
Defined.

(** ** Nothing logged is taken back *)

Section Growth.
Variable throws : string -> bool.
Implicit Types (s : State) (p : Page).

Lemma grows_refl s : grows s s.
Proof. by repeat split. Qed.

Lemma grows_trans s1 s2 s3 : grows s1 s2 -> grows s2 s3 -> grows s1 s3.
Proof.
  intros (H1 & H2 & H3 & H4 & H5) (H1' & H2' & H3' & H4' & H5').
  repeat split; by etrans.
Qed.

Lemma grows_addConnectionMessage now m s : grows s (addConnectionMessage now m s).
Proof. repeat split; simpl; first [done|by apply prefix_app_r]. Qed.

Lemma grows_to_console e s : grows s (to_console e s).
Proof. repeat split; simpl; first [done|by apply prefix_app_r]. Qed.

Lemma grows_alert m s : grows s (alert m s).
Proof. repeat split; simpl; first [done|by apply prefix_app_r]. Qed.

Lemma grows_setIsConnected b s : grows s (setIsConnected b s).
Proof. by repeat split. Qed.

Lemma grows_setOrders f s : grows s (setOrders f s).
Proof. by repeat split. Qed.

Lemma grows_setBranchId v s : grows s (setBranchId v s).
Proof. by repeat split. Qed.

Lemma grows_fetchOrders s : grows s (fetchOrders s).
Proof.
  repeat split; simpl; try done. rewrite fmap_app. by apply prefix_app_r.
Qed.

Lemma fmap_url_alter i st (l : list WebSocket) :
  url <$> alter (fun ws => {| url := url ws; readyState := st |}) i l = url <$> l.
Proof.
  revert i. induction l as [|ws l IH]; intros [|i]; simpl; try done.
  f_equal. apply IH.
Qed.

Lemma grows_set_readyState i st s : grows s (set_readyState i st s).
Proof. repeat split; simpl; try done. by rewrite fmap_url_alter. Qed.

Lemma grows_close i s : grows s (close i s).
Proof.
  unfold close. destruct (sockets s !! i) as [ws|]; [|apply grows_refl].
  destruct (live ws); [apply grows_set_readyState|apply grows_refl].
Qed.

Lemma grows_new_socket ws s :
  grows s (set_socketRef (Some (length (sockets s))) (set_sockets (sockets s ++ [ws]) s)).
Proof.
  repeat split; simpl; try done. rewrite fmap_app. by apply prefix_app_r.
Qed.

Lemma grows_settle r u s :
  requests s !! r = Some {| request_url := u; settled := false |} ->
  grows s (set_requests (<[r := {| request_url := u; settled := true |}]> (requests s)) s).
Proof.
  intros Hr. repeat split; simpl; try done.
  rewrite list_fmap_insert. simpl. rewrite list_insert_id; [done|].
  by rewrite list_lookup_fmap, Hr.
Qed.

Ltac grow :=
  repeat first
    [ apply grows_refl
    | eapply grows_trans;
      [|first [ apply grows_addConnectionMessage | apply grows_to_console
              | apply grows_alert | apply grows_setIsConnected
              | apply grows_setOrders | apply grows_setBranchId
              | apply grows_fetchOrders | apply grows_set_readyState
              | apply grows_close | apply grows_new_socket ]] ].

Lemma grows_onmessage now f s : grows s (onmessage now f s).
Proof.
  destruct f as [| |m]; simpl; [grow|grow|]. repeat case_bool_decide; grow.
Qed.

Lemma grows_connectWebSocket now s : grows s (connectWebSocket throws now s).
Proof.
  unfold connectWebSocket. case_bool_decide; [grow|].
  destruct (throws _).
  - destruct (socketRef s); grow.
  - eapply grows_trans; [|apply grows_new_socket].
    destruct (socketRef s); grow.
Qed.

Lemma grows_fetchOrders_settled now outcome s : grows s (fetchOrders_settled now outcome s).
Proof.
  destruct outcome as [err|[body|]]; simpl; [grow| |grow].
  destruct (PrimFloat.eqb _ _); [|grow]. destruct (Axios.data body); grow.
Qed.

Lemma grows_step s e : grows s (step throws s e).
Proof.
  destruct e as [now [v| | | |i|i f|i|i|r outcome]]; simpl.
  - unfold onChange, branchId_effect. repeat case_bool_decide; grow.
  - destruct (isConnected s); [grow|apply grows_connectWebSocket].
  - destruct (isConnected s); [|grow]. unfold disconnect.
    destruct (socketRef s); grow.
  - grow.
  - destruct (sockets s !! i) as [[u [| | |]]|]; unfold onopen; grow.
  - destruct (sockets s !! i) as [[u [| | |]]|]; try grow. apply grows_onmessage.
  - destruct (sockets s !! i) as [[u [| | |]]|]; unfold onerror; grow.
  - destruct (sockets s !! i) as [[u [| | |]]|]; unfold onclose; grow.
  - destruct (requests s !! r) as [[u [|]]|] eqn:Hr; try grow.
    eapply grows_trans; [by apply grows_settle|]. apply grows_fetchOrders_settled.
Qed.

Lemma page_grows_refl p : page_grows p p.
Proof. split; [apply grows_refl|done]. Qed.

Lemma page_grows_same p p' :
  sync p' = sync p -> posts p' = posts p -> puts p' = puts p -> page_grows p p'.
Proof. intros Hs Hp Hq. unfold page_grows. rewrite Hs, Hp, Hq. apply page_grows_refl. Qed.

Lemma page_grows_trans p1 p2 p3 : page_grows p1 p2 -> page_grows p2 p3 -> page_grows p1 p3.
Proof.
  intros (H1 & H2 & H3) (H1' & H2' & H3').
  split; [by eapply grows_trans|]. split; by etrans.
Qed.

Lemma page_grows_on_sync f p :
  grows (sync p) (f (sync p)) -> page_grows p (on_sync f p).
Proof. intros H. by split. Qed.

Lemma page_grows_createOrder_settled now branch outcome p :
  page_grows p (createOrder_settled now branch outcome p).
Proof.
  destruct outcome as [err|response msg]; simpl.
  - split; [simpl; grow|done].
  - destruct (PrimFloat.eqb _ _); (split; [simpl; grow|done]).
Qed.

Lemma page_grows_updateOrderStatus_settled now id st outcome p :
  page_grows p (updateOrderStatus_settled now id st outcome p).
Proof.
  destruct outcome as [err|response msg]; simpl.
  - split; [simpl; grow|done].
  - destruct (PrimFloat.eqb _ _); (split; [simpl; grow|done]).
Qed.

Lemma page_grows_step p e : page_grows p (page_step throws p e).
Proof.
  destruct e as [now [e'|v|v|v|v|x|x|x| | |k outcome|i b|k outcome]]; simpl;
    try (by apply page_grows_same).
  - apply page_grows_on_sync. apply (grows_step (sync p) (now, e')).
  - unfold addItemToOrder. destruct (item_rejected _); [|by apply page_grows_same].
    apply page_grows_on_sync. grow.
  - destruct (negb _ || _); [apply page_grows_refl|]. unfold createOrder.
    destruct (_ || _); [apply page_grows_on_sync; grow|].
    split; [apply grows_refl|]. simpl. split; [|done].
    rewrite fmap_app. by apply prefix_app_r.
  - destruct (posts p !! k) as [[body [|]]|] eqn:Hk; try apply page_grows_refl.
    eapply page_grows_trans; [|apply page_grows_createOrder_settled].
    split; [apply grows_refl|]. simpl. split; [|done].
    rewrite list_fmap_insert. simpl. rewrite list_insert_id; [done|].
    by rewrite list_lookup_fmap, Hk.
  - destruct (orders (sync p) !! i); [|apply page_grows_refl].
    split; [apply grows_refl|]. simpl. split; [done|].
    rewrite fmap_app. by apply prefix_app_r.
  - destruct (puts p !! k) as [[body [|]]|] eqn:Hk; try apply page_grows_refl.
    eapply page_grows_trans; [|apply page_grows_updateOrderStatus_settled].
    split; [apply grows_refl|]. simpl. split; [done|].
    rewrite list_fmap_insert. simpl. rewrite list_insert_id; [done|].
    by rewrite list_lookup_fmap, Hk.
Qed.
End Growth.

(** X13. Nothing is ever taken back: through every run of the component
    the connection log, the console, the alerts, the URLs of the requests
    sent and of the sockets constructed, and the bodies of the commands
    posted only grow at the end; no entry is removed, reordered or
    rewritten. *)
Theorem logs_only_grow (throws : string -> bool) (trace : list (string * PageEvent))
    (p : Page) :
  page_grows p (page_run throws p trace).
Proof.
  revert p. induction trace as [|e trace IH]; intros p; [apply page_grows_refl|].
  change (page_grows p (page_run throws (page_step throws p e) trace)).
  eapply page_grows_trans; [apply page_grows_step|apply IH].
Qed.

(** X14. The order store is written by push frames and by fetch results
    only: an edit of the form, a click on any button, a socket opening,
    closing or failing, and the outcome of a create-order or
    update-status command, also a successful one, leave the store as it
    is. *)
Theorem store_written_by_frames_and_fetches_only (throws : string -> bool)
    (now : string) (e : PageEvent) (p : Page) :
  may_write_store e = false ->
  orders (sync (page_step throws p (now, e))) = orders (sync p).
Proof.
  intros He.
  destruct e as [e'|v|v|v|v|x|x|x| | |k outcome|i b|k outcome];
    try (by apply (page_step_same_core throws p now); intros e''; discriminate).
  destruct e' as [v| | | |i|i f|i|i|r outcome]; try discriminate He; simpl.
  - unfold onChange, branchId_effect. by repeat case_bool_decide.
  - destruct (isConnected (sync p)); [done|]. unfold connectWebSocket.
    case_bool_decide; [done|]. destruct (throws _); simpl;
      destruct (socketRef (sync p)) as [r|]; try done; apply close_fields.
  - destruct (isConnected (sync p)); [|done]. unfold disconnect.
    destruct (socketRef (sync p)) as [r|]; [|done]. simpl. apply close_fields.
  - done.
  - by destruct (sockets (sync p) !! i) as [[u [| | |]]|].
  - by destruct (sockets (sync p) !! i) as [[u [| | |]]|].
  - by destruct (sockets (sync p) !! i) as [[u [| | |]]|].
Qed.

Lemma store_written_by_frames_and_fetches_only_witness :
  orders (sync (page_step accepts_all
                  (page_run accepts_all initial_page form_session)
                  ("09:00:09", PostSettled 0 (Answered 200 None))))
  = orders (sync (page_run accepts_all initial_page form_session)).
Proof.
  apply (store_written_by_frames_and_fetches_only accepts_all "09:00:09"
           (PostSettled 0 (Answered 200 None))
           (page_run accepts_all initial_page form_session)).
  reflexivity.
Defined.

(** ** The order form *)

(** Comparison of doubles: with no [NaN] involved, [x < y] fails exactly
    when [y <= x] holds. *)
Lemma SFcompare_antisym (x y : spec_float) :
  SFcompare y x = option_map CompOpp (SFcompare x y).
Proof.
  destruct x as [sx|sx| |sx mx ex], y as [sy|sy| |sy my ey]; simpl; try done;
    try (by destruct sx); try (by destruct sy); try (by destruct sx, sy).
  destruct sx, sy; simpl; try done.
  - rewrite (Z.compare_antisym ex ey). destruct (ex ?= ey)%Z; simpl; try done.
    f_equal. rewrite CompOpp_involutive.
    exact (Pos.compare_cont_antisym my mx Eq).
  - rewrite (Z.compare_antisym ex ey). destruct (ex ?= ey)%Z; simpl; try done.
    f_equal. symmetry. exact (Pos.compare_cont_antisym mx my Eq).
Qed.

Lemma SFcompare_defined (x y : spec_float) :
  SFeqb x x = true -> SFeqb y y = true -> exists c, SFcompare x y = Some c.
Proof.
  unfold SFeqb.
  destruct x as [sx|sx| |sx mx ex], y as [sy|sy| |sy my ey]; simpl;
    try discriminate; intros _ _; by eexists.
Qed.

Lemma is_nan_SFeqb (x : float) :
  PrimFloat.is_nan x = false -> SFeqb (Prim2SF x) (Prim2SF x) = true.
Proof.
  unfold PrimFloat.is_nan. rewrite FloatAxioms.eqb_spec.
  by destruct (SFeqb _ _).
Qed.

Lemma not_ltb_leb (x y : float) :
  PrimFloat.is_nan x = false -> PrimFloat.is_nan y = false ->
  PrimFloat.ltb x y = false -> PrimFloat.leb y x = true.
Proof.
  intros Hx%is_nan_SFeqb Hy%is_nan_SFeqb.
  rewrite ltb_spec, leb_spec. unfold SFltb, SFleb.
  rewrite (SFcompare_antisym (Prim2SF x) (Prim2SF y)).
  destruct (SFcompare_defined _ _ Hx Hy) as [c ->]. by destruct c.
Qed.

Lemma not_leb_ltb (x y : float) :
  PrimFloat.is_nan x = false -> PrimFloat.is_nan y = false ->
  PrimFloat.leb x y = false -> PrimFloat.ltb y x = true.
Proof.
  intros Hx%is_nan_SFeqb Hy%is_nan_SFeqb.
  rewrite ltb_spec, leb_spec. unfold SFltb, SFleb.
  rewrite (SFcompare_antisym (Prim2SF x) (Prim2SF y)).
  destruct (SFcompare_defined _ _ Hx Hy) as [c ->]. by destruct c.
Qed.

Lemma truthy_not_nan (x : float) : truthy x = true -> PrimFloat.is_nan x = false.
Proof. unfold truthy. by destruct (PrimFloat.is_nan x). Qed.

Lemma number_or_truthy (x fallback : float) :
  truthy fallback = true -> truthy (number_or x fallback) = true.
Proof. intros H. unfold number_or. by destruct (truthy x) eqn:E. Qed.

Lemma number_or_not_nan (x fallback : float) :
  PrimFloat.is_nan fallback = false ->
  PrimFloat.is_nan (number_or x fallback) = false.
Proof.
  intros H. unfold number_or. destruct (truthy x) eqn:E; [|done].
  by apply truthy_not_nan.
Qed.

(** An item the guard lets pass, with numbers in its fields, is valid. *)
Lemma accepted_is_valid (item : Form.OrderItem) :
  sanitised item = true -> item_rejected item = false -> valid_item item = true.
Proof.
  unfold sanitised, item_rejected, valid_item.
  intros [[Hq Hp]%andb_true_iff _]%andb_true_iff.
  intros [[Hid Hlt]%orb_false_iff Hle]%orb_false_iff.
  apply truthy_not_nan in Hq. apply negb_true_iff in Hp.
  rewrite Hid. simpl.
  rewrite (not_ltb_leb (Form.quantity item) 1 Hq eq_refl Hlt).
  by rewrite (not_leb_ltb (Form.soldPrice item) 0 Hp eq_refl Hle).
Qed.

Section FormInvariant.
Variable throws : string -> bool.
Implicit Types (p : Page).

Lemma valid_not_rejected (item : Form.OrderItem) :
  valid_item item = true -> item_rejected item = false.
Proof.
  unfold valid_item, item_rejected.
  intros [[Hid Hq]%andb_true_iff Hp]%andb_true_iff.
  apply negb_true_iff in Hid. rewrite Hid. simpl.
  revert Hq Hp. rewrite !ltb_spec, !leb_spec. unfold SFltb, SFleb.
  rewrite (SFcompare_antisym (Prim2SF 1) (Prim2SF (Form.quantity item))).
  rewrite (SFcompare_antisym (Prim2SF 0) (Prim2SF (Form.soldPrice item))).
  generalize (SFcompare (Prim2SF 1) (Prim2SF (Form.quantity item))).
  generalize (SFcompare (Prim2SF 0) (Prim2SF (Form.soldPrice item))).
  intros [[| |]|] [[| |]|]; simpl; try discriminate; done.
Qed.

Lemma form_invariant_same p p' :
  newItem p' = newItem p -> Form.items (newOrder p') = Form.items (newOrder p) ->
  posts p' = posts p -> form_invariant p -> form_invariant p'.
Proof. intros Hi Ho Hp. unfold form_invariant. by rewrite Hi, Ho, Hp. Qed.

Lemma form_invariant_createOrder_settled now branch outcome p :
  form_invariant p -> form_invariant (createOrder_settled now branch outcome p).
Proof.
  intros (Hi & Ho & Hp). destruct outcome as [err|response msg]; simpl; [done|].
  destruct (PrimFloat.eqb _ _); [|done]. split; [done|]. split; [|done]. constructor.
Qed.

Lemma form_invariant_step p e :
  form_invariant p -> form_invariant (page_step throws p e).
Proof.
  intros H.
  destruct e as [now [e'|v|v|v|v|x|x|x| | |k outcome|i b|k outcome]]; simpl;
    try (by revert H; apply form_invariant_same).
  - destruct H as (Hi & Ho & Hp). by split.
  - destruct H as (Hi & Ho & Hp). split; [|done]. unfold sanitised in *. simpl.
    apply andb_true_iff in Hi as [[_ Hpr]%andb_true_iff Hd].
    by rewrite (number_or_truthy x 1 eq_refl), Hpr, Hd.
  - destruct H as (Hi & Ho & Hp). split; [|done]. unfold sanitised in *. simpl.
    apply andb_true_iff in Hi as [[Hq _]%andb_true_iff Hd].
    by rewrite Hq, (number_or_not_nan x 0 eq_refl), Hd.
  - destruct H as (Hi & Ho & Hp). split; [|done]. unfold sanitised in *. simpl.
    apply andb_true_iff in Hi as [Hqp _]. rewrite Hqp. simpl.
    by destruct (truthy x) eqn:E.
  - unfold addItemToOrder. destruct (item_rejected (newItem p)) eqn:Hrej.
    + revert H. by apply form_invariant_same.
    + destruct H as (Hi & Ho & Hp). split; [done|]. split; [|done]. simpl.
      apply Forall_app. split; [done|]. constructor; [|constructor].
      split; [by apply accepted_is_valid|done].
  - destruct (negb _ || _); [done|]. unfold createOrder.
    destruct (bool_decide (branchId (sync p) = "")) eqn:Hb; simpl.
    { revert H. by apply form_invariant_same. }
    destruct (bool_decide (Form.items (newOrder p) = [])) eqn:Hn; simpl.
    { revert H. by apply form_invariant_same. }
    destruct H as (Hi & Ho & Hp). split; [done|]. split; [done|]. simpl.
    apply Forall_app. split; [done|]. constructor; [|constructor]. simpl.
    apply bool_decide_eq_false in Hb, Hn. by split; [|split].
  - destruct (posts p !! k) as [[body [|]]|] eqn:Hk; try done.
    apply form_invariant_createOrder_settled.
    destruct H as (Hi & Ho & Hp). split; [done|]. split; [done|]. simpl.
    apply Forall_insert; [done|]. simpl.
    by apply (proj1 (Forall_lookup _ _) Hp k _ Hk).
  - destruct (orders (sync p) !! i); [|done]. revert H. by apply form_invariant_same.
  - destruct (puts p !! k) as [[body [|]]|]; try done.
    destruct outcome as [err|response msg]; simpl;
      [revert H; by apply form_invariant_same|].
    destruct (PrimFloat.eqb _ _); revert H; by apply form_invariant_same.
Qed.

Lemma form_invariant_run trace p :
  form_invariant p -> form_invariant (page_run throws p trace).
Proof.
  revert p. induction trace as [|e trace IH]; intros p H; [done|].
  change (form_invariant (page_run throws (page_step throws p e) trace)).
  by apply IH, form_invariant_step.
Qed.

Lemma form_invariant_initial : form_invariant initial_page.
Proof. split; [done|]. split; constructor. Qed.
End FormInvariant.

(** X15. The item fields always hold numbers: whatever is typed into the
    quantity, price and discount fields (also text that parses to [NaN],
    or a zero), the quantity in the form is neither [NaN] nor zero, the
    price is not [NaN], and the discount is absent or a number other than
    zero. *)
Theorem item_fields_hold_numbers (throws : string -> bool)
    (trace : list (string * PageEvent)) :
  sanitised (newItem (page_run throws initial_page trace)) = true.
Proof. apply (form_invariant_run throws trace initial_page form_invariant_initial). Qed.

(** X16. The order form never holds an item the guard of Add Item would
    have refused: every item of the order being composed has an id, a
    quantity of at least 1 and a price above 0. *)
Theorem form_items_are_valid (throws : string -> bool)
    (trace : list (string * PageEvent)) (item : Form.OrderItem) :
  item ∈ Form.items (newOrder (page_run throws initial_page trace)) ->
  Form.itemID item <> "" /\
  PrimFloat.leb 1 (Form.quantity item) = true /\
  PrimFloat.ltb 0 (Form.soldPrice item) = true.
Proof.
  intros Hin.
  destruct (form_invariant_run throws trace initial_page form_invariant_initial)
    as (_ & Ho & _).
  destruct (proj1 (Forall_forall _ _) Ho item Hin) as [Hv _].
  unfold valid_item in Hv.
  apply andb_true_iff in Hv as [[Hid Hq]%andb_true_iff Hp].
  split; [|done]. apply negb_true_iff in Hid. by apply bool_decide_eq_false in Hid.
Qed.

Lemma form_items_are_valid_witness :
  Form.itemID tea <> "" /\
  PrimFloat.leb 1 (Form.quantity tea) = true /\
  PrimFloat.ltb 0 (Form.soldPrice tea) = true.
Proof.
  apply (form_items_are_valid accepts_all form_session tea).
  vm_compute. apply list_elem_of_here.
Defined.

(** X17. Every order the component posts is well formed: its branch id is
    not empty, it has at least one item, and each of its items has an id,
    a quantity of at least 1 and a price above 0. *)
Theorem posted_orders_are_well_formed (throws : string -> bool)
    (trace : list (string * PageEvent)) (k : nat) (post : PostRequest) :
  posts (page_run throws initial_page trace) !! k = Some post ->
  Form.branchID (post_body post) <> "" /\
  Form.items (post_body post) <> [] /\
  forall item, item ∈ Form.items (post_body post) -> valid_item item = true.
Proof.
  intros Hk.
  destruct (form_invariant_run throws trace initial_page form_invariant_initial)
    as (_ & _ & Hp).
  destruct (proj1 (Forall_lookup _ _) Hp k post Hk) as (Hb & Hn & Hitems).
  split; [done|]. split; [done|]. intros item Hin.
  by destruct (proj1 (Forall_forall _ _) Hitems item Hin).
Qed.

Lemma posted_orders_are_well_formed_witness :
  Form.branchID (post_body {| post_body :=
     {| Form.branchID := "B1"; Form.orderType := "Dine-in";
        Form.orderNote := Some ""; Form.paymentType := "Cash";
        Form.items := [tea] |}; post_settled := false |}) <> "" /\
  [tea] <> [] /\
  forall item, item ∈ [tea] -> valid_item item = true.
Proof.
  apply (posted_orders_are_well_formed accepts_all form_session 0
           {| post_body :=
                {| Form.branchID := "B1"; Form.orderType := "Dine-in";
                   Form.orderNote := Some ""; Form.paymentType := "Cash";
                   Form.items := [tea] |};
              post_settled := false |}).
  reflexivity.
Defined.

(** X18. Add Item takes exactly the valid items: with numbers in the item
    fields (as they always are), an item with an id, a quantity of at
    least 1 and a price above 0 is appended to the order as it is and the
    item fields are emptied, without an alert; any other item raises the
    alert and leaves the order and the item fields as they are. *)
Theorem add_item_takes_exactly_valid_items (p : Page) :
  sanitised (newItem p) = true ->
  (valid_item (newItem p) = true ->
     Form.items (newOrder (addItemToOrder p)) = Form.items (newOrder p) ++ [newItem p] /\
     newItem (addItemToOrder p) = blank_item /\
     sync (addItemToOrder p) = sync p) /\
  (valid_item (newItem p) = false ->
     newOrder (addItemToOrder p) = newOrder p /\
     newItem (addItemToOrder p) = newItem p /\
     alerts (sync (addItemToOrder p))
     = alerts (sync p) ++ ["Please fill in all item fields with valid values"]).
Proof.
  intros Hs. unfold addItemToOrder. split.
  - intros Hv. by rewrite (valid_not_rejected _ Hv).
  - intros Hv. destruct (item_rejected (newItem p)) eqn:Hr; [done|].
    by rewrite (accepted_is_valid _ Hs Hr) in Hv.
Qed.

Lemma add_item_takes_exactly_valid_items_witness :
  Form.items (newOrder (addItemToOrder (setNewItem tea initial_page))) = [tea] /\
  alerts (sync (addItemToOrder (changeQuantity (-3) (setNewItem tea initial_page))))
  = ["Please fill in all item fields with valid values"].
Proof.
  split.
  - apply (add_item_takes_exactly_valid_items (setNewItem tea initial_page));
      reflexivity.
  - apply (add_item_takes_exactly_valid_items
             (changeQuantity (-3) (setNewItem tea initial_page))); reflexivity.
Defined.

(** X19. The answer to a create-order command decides the form: on
    response 200 the form is reset to an empty order of the branch the
    command was sent for, whatever was entered while the command was in
    flight; on any other answer or an error the order being composed is
    kept as it is.  The item fields are not touched, and a command is
    answered once. *)
Theorem create_order_answer_resets_or_keeps_form (throws : string -> bool)
    (now : string) (p : Page) (k : nat) (body : Form.CreateOrderDTO) :
  posts p !! k = Some {| post_body := body; post_settled := false |} ->
  (forall response message,
     PrimFloat.eqb response 200 = true ->
     newOrder (page_step throws p (now, PostSettled k (Answered response message)))
     = blank_order (Form.branchID body)) /\
  (forall response message,
     PrimFloat.eqb response 200 = false ->
     newOrder (page_step throws p (now, PostSettled k (Answered response message)))
     = newOrder p) /\
  (forall error_message,
     newOrder (page_step throws p (now, PostSettled k (Thrown error_message)))
     = newOrder p) /\
  (forall outcome,
     newItem (page_step throws p (now, PostSettled k outcome)) = newItem p /\
     forall now' outcome',
       page_step throws (page_step throws p (now, PostSettled k outcome))
                 (now', PostSettled k outcome')
       = page_step throws p (now, PostSettled k outcome)).
Proof.
  intros Hk. split; [|split; [|split]].
  - intros response message H200. simpl. rewrite Hk. simpl. by rewrite H200.
  - intros response message H200. simpl. rewrite Hk. simpl. by rewrite H200.
  - intros error_message. simpl. by rewrite Hk.
  - intros outcome.
    assert (forall q, newItem (createOrder_settled now (Form.branchID body) outcome q)
                      = newItem q /\
                      posts (createOrder_settled now (Form.branchID body) outcome q)
                      = posts q) as Hq.
    { intros q. destruct outcome as [err|response message]; simpl; [done|].
      by destruct (PrimFloat.eqb _ _). }
    simpl. rewrite Hk. split; [by rewrite (proj1 (Hq _))|].
    intros now' outcome'. rewrite (proj2 (Hq _)). simpl.
    rewrite list_lookup_insert_eq; [done|]. by eapply lookup_lt_Some.
Qed.

Lemma create_order_answer_resets_or_keeps_form_witness :
  Form.items (newOrder (page_run accepts_all initial_page
                          (form_session ++
                           [("09:00:09", ChangeItemID "I-2");
                            ("09:00:10", ChangeSoldPrice 4);
                            ("09:00:11", ClickAddItem)])))
  = [tea; {| Form.itemID := "I-2"; Form.quantity := 1; Form.soldPrice := 4;
             Form.discountedPercentage := None |}] /\
  newOrder (page_step accepts_all
              (page_run accepts_all initial_page
                 (form_session ++
                  [("09:00:09", ChangeItemID "I-2"); ("09:00:10", ChangeSoldPrice 4);
                   ("09:00:11", ClickAddItem)]))
              ("09:00:12", PostSettled 0 (Answered 200 None)))
  = blank_order "B1".
Proof.
  split; [reflexivity|].
  exact (proj1 (create_order_answer_resets_or_keeps_form accepts_all "09:00:12"
                  (page_run accepts_all initial_page
                     (form_session ++
                      [("09:00:09", ChangeItemID "I-2"); ("09:00:10", ChangeSoldPrice 4);
                       ("09:00:11", ClickAddItem)]))
                  0
                  {| Form.branchID := "B1"; Form.orderType := "Dine-in";
                     Form.orderNote := Some ""; Form.paymentType := "Cash";
                     Form.items := [tea] |}
                  eq_refl)
               200%float None eq_refl).
Defined.
